(** * Average with test doubles: statistics engine, number sources, report facade

    A shallow embedding of [average.ts] (the report facade) and of the
    number sources declared in the accompanying test module, together with
    the statistics engine [statistics.ts] the facade imports.

    JavaScript numbers are IEEE-754 binary64 values: they are modelled by
    the kernel's primitive floats, so that not-a-number, signed zeros and
    rounding are those of the program.  Arrays are mutable objects: they
    live in a store and are passed around by reference. *)

From Stdlib Require Import ZArith Lia Bool List Floats Uint63 Permutation Sorted.
From stdpp Require Import base option list strings gmap sorting.

Local Open Scope float_scope.

(** ** JavaScript numbers *)

Module Num.

Abbreviation number := float.

(** [x === y] on numbers: IEEE equality ([NaN] differs from itself,
    the two zeros are equal). *)
Definition strict_eq (x y : number) : bool := (x =? y)%float.

(** [x !== y]. *)
Definition strict_neq (x y : number) : bool := negb (x =? y)%float.

(** [Number.isNaN]. *)
Definition isNaN (x : number) : bool := is_nan x.

(** The equality under which two results denote the same number:
    numerically equal, or both not-a-number (JavaScript's SameValueZero). *)
Definition same_value (x y : number) : bool :=
  (x =? y)%float || (is_nan x && is_nan y).

(** The value of an array length (below [2^32], so exactly representable). *)
Definition of_nat (n : nat) : number := of_uint63 (Uint63.of_Z (Z.of_nat n)).

End Num.
Export Num.

(** ** The order of binary64 values

    Every value but not-a-number is ranked by a key in [Z * Z * Z] ordered
    lexicographically; the comparisons of the specification of floats are
    the comparisons of keys.  The two zeros share a key. *)

Module FloatOrder.

Definition key3 : Type := Z * Z * Z.

Definition klt (a b : key3) : Prop :=
  let '(a1, a2, a3) := a in
  let '(b1, b2, b3) := b in
  (a1 < b1 \/ (a1 = b1 /\ (a2 < b2 \/ (a2 = b2 /\ a3 < b3))))%Z.

Definition kle (a b : key3) : Prop := klt a b \/ a = b.

Definition sf_key (x : spec_float) : key3 :=
  match x with
  | S754_nan => (0, 0, 0)
  | S754_zero _ => (0, 0, 0)
  | S754_infinity s => (if s then -2 else 2, 0, 0)
  | S754_finite s m e =>
      if s then (-1, - e, Z.neg m) else (1, e, Z.pos m)
  end%Z.

Definition key (x : float) : key3 := sf_key (Prim2SF x).

(** A number: any value but not-a-number. *)
Definition number_like (x : float) : Prop := is_nan x = false.

Definition is_zero_sf (x : spec_float) : Prop :=
  match x with S754_zero _ => True | _ => False end.

(** A sequence of numbers: no element is not-a-number. *)
Definition all_numbers (xs : list float) : Prop := Forall number_like xs.

(** [x <= y] and [x === y] hold. *)
Definition le_num (x y : float) : Prop := (x <=? y)%float = true.
Definition eq_num (x y : float) : Prop := (x =? y)%float = true.

(** Sorted ascending. *)
Definition ascending (l : list float) : Prop := Sorted le_num l.

End FloatOrder.
Import FloatOrder.

(** ** The statistics engine *)

Module Statistics.

(** Modelled from the spec: the module [statistics.ts], imported by the
    facade, is not part of the sources at hand.  [sum] adds the elements
    from left to right starting from [0]. *)
Definition sum (xs : list number) : number := fold_left PrimFloat.add xs 0.

(** Modelled from the spec: [mean] of [statistics.ts], sum / count, so
    that the mean of no element is [0 / 0], not-a-number. *)
Definition mean (xs : list number) : number :=
  sum xs / Num.of_nat (length xs).

(** Modelled from the spec: the ascending sort [median] and [mode] of
    [statistics.ts] apply, by insertion under the numeric comparison [<=]. *)
Fixpoint insert_asc (x : number) (l : list number) : list number :=
  match l with
  | [] => [x]
  | y :: l' => if (x <=? y)%float then x :: l else y :: insert_asc x l'
  end.

(** Modelled from the spec: sorting ascending, for [statistics.ts]. *)
Definition sort_asc (xs : list number) : list number :=
  foldr insert_asc [] xs.

(** Modelled from the spec: the central elements [median] of
    [statistics.ts] averages for a sequence of even length [n], those at
    indices [n/2 - 1] and [n/2] that exist (none when [n = 0]). *)
Definition central (sorted : list number) : list number :=
  take 2 (drop (length sorted / 2 - 1) sorted).

(** Modelled from the spec: the result of [median] of [statistics.ts] on
    the sorted copy, the middle element when the count is odd, else the
    [mean] of the central elements; on the empty sequence this is the mean
    of no element. *)
Definition middle (sorted : list number) : number :=
  let n := length sorted in
  if Nat.odd n then nth (n / 2) sorted nan else mean (central sorted).

(** Modelled from the spec: [median] of [statistics.ts]. *)
Definition median (xs : list number) : number := middle (sort_asc xs).

(** Modelled from the spec: the occurrence count [mode] of [statistics.ts]
    takes of [v], the number of elements numerically equal to [v]. *)
Definition occurrences (v : number) (xs : list number) : nat :=
  length (List.filter (fun x => (x =? v)%float) xs).

(** Modelled from the spec: the distinct values [mode] of [statistics.ts]
    counts, each at its first occurrence. *)
Fixpoint distinct (xs : list number) : list number :=
  match xs with
  | [] => []
  | x :: xs' => x :: List.filter (fun y => negb (y =? x)%float) (distinct xs')
  end.

(** Modelled from the spec: the maximum occurrence count in [mode] of
    [statistics.ts], [0] for the empty sequence. *)
Definition max_count (xs : list number) : nat :=
  foldr Nat.max 0%nat (map (fun v => occurrences v xs) (distinct xs)).

(** Modelled from the spec: [mode] of [statistics.ts], every distinct
    value whose occurrence count is the maximum one, sorted ascending. *)
Definition mode (xs : list number) : list number :=
  sort_asc
    (List.filter (fun v => Nat.eqb (occurrences v xs) (max_count xs))
       (distinct xs)).


End Statistics.

(** ** Arrays in the store, promises *)

Module Store.

(** An array is an object: a location of the store holding its elements. *)
Abbreviation loc := nat.
Abbreviation heap := (list (list number)).

Definition deref (h : heap) (a : loc) : list number := default [] (h !! a).

(** An array literal or any other new array: the next free location. *)
Definition alloc (xs : list number) (h : heap) : loc * heap :=
  (length h, h ++ [xs]).

(** [a.push(x)]. *)
Definition push (a : loc) (x : number) (h : heap) : heap :=
  <[a := deref h a ++ [x]]> h.

Record Error : Type := mkError { message : string }.

(** A settled promise, or the outcome of a call that may throw. *)
Inductive settled (A : Type) : Type :=
| Fulfilled (a : A)
| Rejected (e : Error).
Arguments Fulfilled {A} a.
Arguments Rejected {A} e.

(** A computation over the state [S] of an object and the store. *)
Definition Async (S A : Type) : Type := S -> heap -> settled A * S * heap.

Definition resolve {S A} (a : A) : Async S A :=
  fun s h => (Fulfilled a, s, h).

Definition reject {S A} (e : Error) : Async S A :=
  fun s h => (Rejected e, s, h).

(** [await m] then [k]: a rejection of [m] is thrown on. *)
Definition await {S A B} (m : Async S A) (k : A -> Async S B) : Async S B :=
  fun s h =>
    match m s h with
    | (Fulfilled a, s', h') => k a s' h'
    | (Rejected e, s', h') => (Rejected e, s', h')
    end.

(** [[x1, ..., xn]]. *)
Definition array_literal {S} (xs : list number) : Async S loc :=
  fun s h => let '(a, h') := alloc xs h in (Fulfilled a, s, h').

(** [[...a]]. *)
Definition spread {S} (a : loc) : Async S loc :=
  fun s h => let '(b, h') := alloc (deref h a) h in (Fulfilled b, s, h').

Definition outcome {S A} (r : settled A * S * heap) : settled A := r.1.1.
Definition state_after {S A} (r : settled A * S * heap) : S := r.1.2.
Definition heap_after {S A} (r : settled A * S * heap) : heap := r.2.

End Store.
Export Store.

(** [const x = await m; k] *)
Notation "'let*' x ':=' m 'in' k" := (await m (fun x => k))
  (at level 10, x name, m at level 100, k at level 200, only parsing).

Module StatisticsCalls.
Import Statistics.

(** Modelled from the spec: [mean] of [statistics.ts] called on an array,
    which it reads. *)
Definition mean {S} (numbers : loc) : Async S number :=
  fun s h => (Fulfilled (Statistics.mean (deref h numbers)), s, h).

(** Modelled from the spec: sorting an array in place, as [median] of
    [statistics.ts] does to its copy. *)
Definition sort_in_place {S} (a : loc) : Async S unit :=
  fun s h => (Fulfilled tt, s, <[a := sort_asc (deref h a)]> h).

(** Modelled from the spec: [median] of [statistics.ts] called on an
    array, of which it sorts a copy, a new array. *)
Definition median {S} (numbers : loc) : Async S number :=
  let* sorted := spread numbers in
  let* _ := sort_in_place sorted in
  fun s h => (Fulfilled (middle (deref h sorted)), s, h).

(** Modelled from the spec: [mode] of [statistics.ts] called on an array;
    the result is a new array. *)
Definition mode {S} (numbers : loc) : Async S loc :=
  fun s h => let '(a, h') := alloc (Statistics.mode (deref h numbers)) h in
             (Fulfilled a, s, h').

End StatisticsCalls.

(** ** The number source capability and the report facade *)

(** Modelled from the spec: the interface of [number_provider.ts], whose
    one operation is [readNumbers(): Promise<Array<number>>], as the number
    sources of the test module implement it. *)
Class NumberProvider (P : Type) : Type :=
  readNumbers : Async P loc.

Module Facade.

(** [class Average { constructor(private numberProvider) }] *)
Record Average (P : Type) : Type := mkAverage { numberProvider : P }.
Arguments mkAverage {P} _.
Arguments numberProvider {P} _.

(** [this.numberProvider.readNumbers()] *)
Definition this_readNumbers {P} `{NumberProvider P} : Async (Average P) loc :=
  fun this h =>
    let '(r, p', h') := readNumbers (numberProvider this) h in
    (r, mkAverage p', h').

Definition computeMeanOfFile {P} `{NumberProvider P} : Async (Average P) number :=
  let* numbers := this_readNumbers in
  StatisticsCalls.mean numbers.

Definition computeMedianOfFile {P} `{NumberProvider P} : Async (Average P) number :=
  let* numbers := this_readNumbers in
  StatisticsCalls.median numbers.

Definition computeModeOfFile {P} `{NumberProvider P} : Async (Average P) loc :=
  let* numbers := this_readNumbers in
  StatisticsCalls.mode numbers.

End Facade.
Export Facade.

(** ** The number sources of the test module *)

Module Doubles.

(** *** FakeFileSystemNumberProvider *)

Record FakeFileSystemNumberProvider : Type := mkFakeFileSystem {
  fileSystem : gmap string loc;
  currentPath : string
}.

(** [this.fileSystem.set(path, [...numbers])] *)
Definition addFile (path : string) (numbers : loc)
  : Async FakeFileSystemNumberProvider unit :=
  let* copy := spread numbers in
  fun this h =>
    (Fulfilled tt,
     mkFakeFileSystem (<[path := copy]> (fileSystem this)) (currentPath this),
     h).

Definition setCurrentPath (path : string)
  : Async FakeFileSystemNumberProvider unit :=
  fun this h => (Fulfilled tt, mkFakeFileSystem (fileSystem this) path, h).

Definition hasFile (path : string) (this : FakeFileSystemNumberProvider) : bool :=
  bool_decide (is_Some (fileSystem this !! path)).

(** The field initialisers, then the three files of the constructor. *)
Definition FakeFileSystem_constructor : Async FakeFileSystemNumberProvider unit :=
  let* empty := array_literal [] in
  let* _ := addFile "/path/to/an/empty/file" empty in
  let* other := array_literal [1; 2; 3; 4; 5] in
  let* _ := addFile "/path/to/some/other/file" other in
  let* third := array_literal [7; 34; 2] in
  addFile "C:\test-data\third-file.txt" third.

Definition new_FakeFileSystemNumberProvider (h : heap)
  : FakeFileSystemNumberProvider * heap :=
  let r := FakeFileSystem_constructor (mkFakeFileSystem ∅ "") h in
  (state_after r, heap_after r).

Definition file_not_found (path : string) : Error :=
  mkError (String.append "File not found: " path).

(** [this.fileSystem.get(this.currentPath) || []]: an array is truthy, so
    the literal is reached only when the map has no such key. *)
Definition get_or_empty (this : FakeFileSystemNumberProvider)
  : Async FakeFileSystemNumberProvider loc :=
  match fileSystem this !! currentPath this with
  | Some numbers => resolve numbers
  | None => array_literal []
  end.

Definition FakeFileSystem_readNumbers : Async FakeFileSystemNumberProvider loc :=
  fun this h =>
    if negb (hasFile (currentPath this) this)
    then reject (file_not_found (currentPath this)) this h
    else (let* numbers := get_or_empty this in spread numbers) this h.

Global Instance FakeFileSystem_provider : NumberProvider FakeFileSystemNumberProvider :=
  FakeFileSystem_readNumbers.

(** *** SimpleFakeNumberProvider *)

Record SimpleFakeNumberProvider : Type := mkSimpleFake { fake_numbers : loc }.

Global Instance SimpleFake_provider : NumberProvider SimpleFakeNumberProvider :=
  fun this h => spread (fake_numbers this) this h.

(** *** HardCodedStubNumberProvider *)

Inductive HardCodedStubNumberProvider : Type := mkHardCodedStub.

Global Instance HardCodedStub_provider : NumberProvider HardCodedStubNumberProvider :=
  array_literal [10; 15; 20; 25; 30].

(** *** ConfigurableStubNumberProvider *)

Record ConfigurableStubNumberProvider : Type :=
  mkConfigurableStub { stubbedNumbers : loc }.

(** [return Promise.resolve(this.stubbedNumbers)]: the array itself. *)
Global Instance ConfigurableStub_provider : NumberProvider ConfigurableStubNumberProvider :=
  fun this h => resolve (stubbedNumbers this) this h.

(** *** SimpleMockNumberProvider *)

Record SimpleMockNumberProvider : Type := mkSimpleMock { simple_callCount : number }.

Definition new_SimpleMockNumberProvider : SimpleMockNumberProvider :=
  mkSimpleMock 0.

Global Instance SimpleMock_provider : NumberProvider SimpleMockNumberProvider :=
  fun this h =>
    array_literal [5; 10; 15; 20; 25] (mkSimpleMock (simple_callCount this + 1)) h.

Definition SimpleMock_getCallCount (this : SimpleMockNumberProvider) : number :=
  simple_callCount this.

Definition SimpleMock_wasCalledExactly (expectedCalls : number)
    (this : SimpleMockNumberProvider) : bool :=
  strict_eq (simple_callCount this) expectedCalls.

Definition SimpleMock_wasCalled (this : SimpleMockNumberProvider) : bool :=
  (0 <? simple_callCount this)%float.

(** *** MockNumberProvider *)

Record MockNumberProvider : Type := mkMock {
  callCount : number;
  expectedCalls : number;
  mock_numbers : loc
}.

(** [constructor(private numbers, expectedCalls = 1)] *)
Definition new_MockNumberProvider (numbers : loc) (expected : option number)
  : MockNumberProvider :=
  mkMock 0 (default 1%float expected) numbers.

Global Instance Mock_provider : NumberProvider MockNumberProvider :=
  fun this h =>
    spread (mock_numbers this)
      (mkMock (callCount this + 1) (expectedCalls this) (mock_numbers this)) h.

Definition getCallCount (this : MockNumberProvider) : number := callCount this.

Section Verify.
(** The conversion of a number to a string in a template literal is
    the language's, taken as given. *)
Variable toString : number -> string.

Definition verify_message (this : MockNumberProvider) : string :=
  String.append "Expected "
    (String.append (toString (expectedCalls this))
       (String.append " calls, but got " (toString (callCount this)))).

(** A call that returns nothing or throws. *)
Definition verify : Async MockNumberProvider unit :=
  fun this h =>
    if strict_neq (callCount this) (expectedCalls this)
    then (Rejected (mkError (verify_message this)), this, h)
    else (Fulfilled tt, this, h).
End Verify.

(** [SpyNumberProvider] stamps each call with the system clock and returns
    a copy of its numbers as the simple fake does; it is left out, no
    property below is about it. *)

(** *** FileAccessSpy, a counting and recording wrapper *)

Record FileAccessSpy (P : Type) : Type := mkFileAccessSpy {
  realFileAccess : P;
  spy_callCount : number;
  recordedResults : list loc
}.
Arguments mkFileAccessSpy {P} _ _ _.
Arguments realFileAccess {P} _.
Arguments spy_callCount {P} _.
Arguments recordedResults {P} _.

Definition new_FileAccessSpy {P} (real : P) : FileAccessSpy P :=
  mkFileAccessSpy real 0 [].

Global Instance FileAccessSpy_provider {P} `{NumberProvider P}
  : NumberProvider (FileAccessSpy P) :=
  fun this h =>
    match readNumbers (realFileAccess this) h with
    | (Fulfilled result, real', h1) =>
        let '(copy, h2) := alloc (deref h1 result) h1 in
        (Fulfilled result,
         mkFileAccessSpy real' (spy_callCount this + 1)
           (recordedResults this ++ [copy]),
         h2)
    | (Rejected e, real', h1) =>
        (Rejected e,
         mkFileAccessSpy real' (spy_callCount this) (recordedResults this),
         h1)
    end.

End Doubles.
Export Doubles.

(** ** Further operations of the number sources *)

Module Accessors.

(** Any mutation of the array [a] by whoever holds it ([push], an
    assignment to an index, a sort in place): its elements become [ys]. *)
Definition assign (a : loc) (ys : list number) (h : heap) : heap :=
  <[a := ys]> h.

(** *** FileAccessSpy: what it recorded *)

Definition FileAccessSpy_getCallCount {P} (this : FileAccessSpy P) : number :=
  spy_callCount this.

Definition FileAccessSpy_wasCalledExactly {P} (expectedCalls : number)
    (this : FileAccessSpy P) : bool :=
  strict_eq (spy_callCount this) expectedCalls.

Definition FileAccessSpy_wasCalled {P} (this : FileAccessSpy P) : bool :=
  (0 <? spy_callCount this)%float.

(** [results.map(result => [...result])]: a new array of new arrays.  The
    outer array is new at each call and held by the caller alone; it is
    given by the list of its elements. *)
Fixpoint spread_each {S} (results : list loc) : Async S (list loc) :=
  match results with
  | [] => resolve []
  | result :: rest =>
      let* copy := spread result in
      let* copies := spread_each rest in
      resolve (copy :: copies)
  end.

Definition getRecordedResults {P} : Async (FileAccessSpy P) (list loc) :=
  fun this h => spread_each (recordedResults this) this h.

(** [length > 0 ? [...recordedResults[length - 1]] : undefined] *)
Definition getLastResult {P} : Async (FileAccessSpy P) (option loc) :=
  fun this h =>
    let results := recordedResults this in
    if (0 <? length results)%nat
    then (let* copy := spread (nth (length results - 1) results 0%nat) in
          resolve (Some copy)) this h
    else resolve None this h.

End Accessors.
Export Accessors.

(** * Properties *)

Section FloatOrderFacts.

Lemma klt_irrefl a : ~ klt a a.
Proof. destruct a as [[a1 a2] a3]. unfold klt. lia. Qed.

Lemma klt_trans a b c : klt a b -> klt b c -> klt a c.
Proof.
  destruct a as [[a1 a2] a3], b as [[b1 b2] b3], c as [[c1 c2] c3].
  unfold klt. lia.
Qed.

Lemma klt_trichotomy a b : klt a b \/ a = b \/ klt b a.
Proof.
  destruct a as [[a1 a2] a3], b as [[b1 b2] b3]. unfold klt.
  destruct (Z.lt_trichotomy a1 b1) as [?|[->|?]]; [lia| |lia].
  destruct (Z.lt_trichotomy a2 b2) as [?|[->|?]]; [lia| |lia].
  destruct (Z.lt_trichotomy a3 b3) as [?|[->|?]]; [lia| |lia].
  right; left; reflexivity.
Qed.

Lemma kle_refl a : kle a a.
Proof. right; reflexivity. Qed.

Lemma kle_trans a b c : kle a b -> kle b c -> kle a c.
Proof.
  intros [H1| ->] [H2| ->]; unfold kle; eauto using klt_trans.
Qed.

Lemma kle_antisym a b : kle a b -> kle b a -> a = b.
Proof.
  intros [H1| ->] [H2| H2]; auto.
  exfalso. eapply klt_irrefl, klt_trans; eauto.
Qed.

Lemma kle_total a b : kle a b \/ kle b a.
Proof.
  destruct (klt_trichotomy a b) as [?|[?|?]]; unfold kle; auto.
Qed.

(** The comparison of the specification is the comparison of keys. *)
Lemma SFcompare_key x y :
  x <> S754_nan -> y <> S754_nan ->
  match SFcompare x y with
  | Some Lt => klt (sf_key x) (sf_key y)
  | Some Eq => sf_key x = sf_key y
  | Some Gt => klt (sf_key y) (sf_key x)
  | None => False
  end.
Proof.
  intros Hx Hy.
  destruct x as [sx|sx| |sx mx ex], y as [sy|sy| |sy my ey];
    try congruence; try destruct sx; try destruct sy; simpl;
    try reflexivity; try lia.
  - change (Pos.compare_cont Eq mx my) with (Pos.compare mx my).
    destruct (Z.compare_spec ex ey) as [->| |]; try lia.
    destruct (Pos.compare_spec mx my) as [->| |]; simpl; try reflexivity; lia.
  - change (Pos.compare_cont Eq mx my) with (Pos.compare mx my).
    destruct (Z.compare_spec ex ey) as [->| |]; try lia.
    destruct (Pos.compare_spec mx my) as [->| |]; simpl; try reflexivity; lia.
Qed.

Lemma SFcompare_nan_l y : SFcompare S754_nan y = None.
Proof. reflexivity. Qed.

Lemma SFcompare_nan_r x : SFcompare x S754_nan = None.
Proof. destruct x; reflexivity. Qed.

Lemma number_like_spec x : number_like x <-> Prim2SF x <> S754_nan.
Proof.
  unfold number_like, is_nan. rewrite FloatAxioms.eqb_spec. unfold SFeqb.
  split.
  - intros H E. rewrite E in H. discriminate.
  - intros H. pose proof (SFcompare_key _ _ H H) as K.
    destruct (SFcompare (Prim2SF x) (Prim2SF x)) as [[| |]|];
      first [reflexivity | contradiction | exfalso; eapply klt_irrefl; eassumption].
Qed.

Lemma SFcompare_some x y c :
  SFcompare x y = Some c -> x <> S754_nan /\ y <> S754_nan.
Proof.
  intros H; split; intros ->.
  - rewrite SFcompare_nan_l in H. discriminate.
  - rewrite SFcompare_nan_r in H. discriminate.
Qed.

(** The comparisons of numbers, through keys. *)
Lemma leb_key x y :
  (x <=? y)%float = true <->
  number_like x /\ number_like y /\ kle (key x) (key y).
Proof.
  rewrite FloatAxioms.leb_spec. unfold SFleb, key, kle. split.
  - intros H. rewrite 2!number_like_spec.
    destruct (SFcompare (Prim2SF x) (Prim2SF y)) as [c|] eqn:E; [|discriminate].
    destruct (SFcompare_some _ _ _ E) as [Hx Hy].
    pose proof (SFcompare_key _ _ Hx Hy) as K. rewrite E in K.
    destruct c; try discriminate; auto.
  - intros (Hx & Hy & K).
    apply number_like_spec in Hx. apply number_like_spec in Hy.
    pose proof (SFcompare_key _ _ Hx Hy) as K'.
    destruct (SFcompare (Prim2SF x) (Prim2SF y)) as [[| |]|];
      first [reflexivity | contradiction | idtac].
    exfalso. destruct K as [K|K].
    + eapply klt_irrefl, klt_trans; eassumption.
    + rewrite K in K'. eapply klt_irrefl; eassumption.
Qed.

Lemma eqb_key x y :
  (x =? y)%float = true <->
  number_like x /\ number_like y /\ key x = key y.
Proof.
  rewrite FloatAxioms.eqb_spec. unfold SFeqb, key. split.
  - intros H. rewrite 2!number_like_spec.
    destruct (SFcompare (Prim2SF x) (Prim2SF y)) as [c|] eqn:E; [|discriminate].
    destruct (SFcompare_some _ _ _ E) as [Hx Hy].
    pose proof (SFcompare_key _ _ Hx Hy) as K. rewrite E in K.
    destruct c; try discriminate; auto.
  - intros (Hx & Hy & K).
    apply number_like_spec in Hx. apply number_like_spec in Hy.
    pose proof (SFcompare_key _ _ Hx Hy) as K'.
    destruct (SFcompare (Prim2SF x) (Prim2SF y)) as [[| |]|];
      first [reflexivity | contradiction | idtac];
      exfalso; rewrite K in K'; eapply klt_irrefl; eassumption.
Qed.

(** Numbers with one key are one number, or the two zeros. *)
Lemma sf_key_inj x y :
  x <> S754_nan -> y <> S754_nan -> sf_key x = sf_key y ->
  x = y \/ (is_zero_sf x /\ is_zero_sf y).
Proof.
  intros Hx Hy.
  destruct x as [sx|sx| |sx mx ex], y as [sy|sy| |sy my ey];
    try congruence; try destruct sx; try destruct sy; simpl;
    intros K; try discriminate; auto;
    injection K as K1 K2; left; f_equal; lia.
Qed.

Lemma key_inj x y :
  number_like x -> number_like y -> key x = key y ->
  x = y \/ (is_zero_sf (Prim2SF x) /\ is_zero_sf (Prim2SF y)).
Proof.
  intros Hx Hy K.
  apply number_like_spec in Hx. apply number_like_spec in Hy.
  destruct (sf_key_inj _ _ Hx Hy K) as [E|Z]; [left|right; exact Z].
  apply Prim2SF_inj, E.
Qed.

End FloatOrderFacts.

(** ** Sorting *)

Section SortFacts.
Import Statistics.

Global Instance kle_transitive : Transitive kle.
Proof. intros a b c. apply kle_trans. Qed.

Global Instance kle_antisymm : AntiSymm (=) kle.
Proof. intros a b. apply kle_antisym. Qed.

Lemma le_num_numbers x y : le_num x y -> number_like x /\ number_like y.
Proof. intros H. apply leb_key in H. tauto. Qed.

Lemma le_num_total x y :
  number_like x -> number_like y -> le_num x y \/ le_num y x.
Proof.
  intros Hx Hy. unfold le_num.
  destruct (kle_total (key x) (key y)); [left|right]; apply leb_key; auto.
Qed.

Lemma leb_false_le x y :
  number_like x -> number_like y -> (x <=? y)%float = false -> le_num y x.
Proof.
  intros Hx Hy H. destruct (le_num_total x y Hx Hy) as [L|L]; auto.
  unfold le_num in L. congruence.
Qed.

Lemma insert_asc_perm x l : Permutation (insert_asc x l) (x :: l).
Proof.
  induction l as [|y l IH]; simpl; [reflexivity|].
  destruct (x <=? y)%float; [reflexivity|].
  rewrite IH. apply perm_swap.
Qed.

Lemma sort_asc_perm xs : Permutation (sort_asc xs) xs.
Proof.
  induction xs as [|x xs IH]; simpl; [reflexivity|].
  rewrite insert_asc_perm. now constructor.
Qed.

Lemma sort_asc_length xs : length (sort_asc xs) = length xs.
Proof. apply Permutation_length, sort_asc_perm. Qed.

Lemma insert_asc_hd x a l :
  le_num a x -> HdRel le_num a l -> HdRel le_num a (insert_asc x l).
Proof.
  intros Hax Hl. destruct l as [|y l]; simpl; [now constructor|].
  destruct (x <=? y)%float; constructor; auto. now inversion Hl.
Qed.

Lemma insert_asc_sorted x l :
  number_like x -> all_numbers l -> ascending l -> ascending (insert_asc x l).
Proof.
  intros Hx Hl Hs. induction Hs as [|y l Hs IH Hd]; simpl.
  - repeat constructor.
  - apply Forall_cons in Hl as [Hy Hl].
    destruct (x <=? y)%float eqn:E.
    + constructor; [now constructor|]. now constructor.
    + constructor; [now apply IH|].
      apply insert_asc_hd; [|assumption]. now apply leb_false_le.
Qed.

Lemma sort_asc_numbers xs : all_numbers xs -> all_numbers (sort_asc xs).
Proof.
  unfold all_numbers. intros H.
  eapply Permutation_Forall; [|exact H]. symmetry. apply sort_asc_perm.
Qed.

Lemma sort_asc_sorted xs : all_numbers xs -> ascending (sort_asc xs).
Proof.
  induction 1 as [|x xs Hx Hxs IH]; simpl; [constructor|].
  apply insert_asc_sorted; auto. now apply sort_asc_numbers.
Qed.

(** Sorted numbers have sorted keys. *)
Lemma ascending_keys l : ascending l -> Sorted kle (map key l).
Proof.
  induction 1 as [|x l Hs IH Hd]; simpl; constructor; auto.
  destruct Hd as [|y l Hxy]; simpl; constructor.
  apply leb_key in Hxy. tauto.
Qed.

(** An ascending sequence of two elements or more holds numbers only. *)
Lemma ascending_numbers l : ascending l -> length l <> 1%nat -> all_numbers l.
Proof.
  induction 1 as [|x l Hs IH Hd]; intros Hn; [constructor|].
  destruct Hd as [|y l Hxy]; [simpl in Hn; congruence|].
  destruct (le_num_numbers _ _ Hxy) as [Hx Hy].
  constructor; [assumption|].
  destruct l as [|z l]; [repeat constructor; assumption|].
  apply IH. simpl. lia.
Qed.

(** Two ascending arrangements of one sequence agree key by key. *)
Lemma ascending_unique_keys s s' :
  ascending s -> ascending s' -> Permutation s s' -> map key s = map key s'.
Proof.
  intros Hs Hs' Hp.
  apply (Sorted_unique kle); auto using ascending_keys.
  now apply Permutation_map.
Qed.

End SortFacts.

(** ** Numeric equality and addition *)

Section NumFacts.
Import Statistics.

Lemma eq_num_sym x y : eq_num x y -> eq_num y x.
Proof. unfold eq_num. rewrite !eqb_key. intuition congruence. Qed.

Lemma eq_num_trans x y z : eq_num x y -> eq_num y z -> eq_num x z.
Proof. unfold eq_num. rewrite !eqb_key. intuition congruence. Qed.


Lemma same_value_refl x : same_value x x = true.
Proof.
  unfold same_value. destruct (is_nan x) eqn:E; simpl.
  - apply orb_true_r.
  - unfold is_nan in E. apply negb_false_iff in E. now rewrite E.
Qed.

Lemma eq_num_same_value x y : eq_num x y -> same_value x y = true.
Proof. unfold eq_num, same_value. now intros ->. Qed.

Lemma Prim2SF_zero : Prim2SF 0 = S754_zero false.
Proof. reflexivity. Qed.

(** Adding either zero to a value other than the negative zero. *)
Lemma add_zero_sign u z z' :
  Prim2SF u <> S754_zero true ->
  is_zero_sf (Prim2SF z) -> is_zero_sf (Prim2SF z') ->
  (u + z)%float = (u + z')%float.
Proof.
  intros Hu Hz Hz'. apply Prim2SF_inj. rewrite !FloatAxioms.add_spec.
  unfold SF64add, SFadd.
  destruct (Prim2SF u) as [[|]|[|]| |su mu eu];
    destruct (Prim2SF z) as [[|]| | |]; try contradiction;
    destruct (Prim2SF z') as [[|]| | |]; try contradiction;
    try reflexivity; congruence.
Qed.

Lemma add_eq_num_r u b b' :
  Prim2SF u <> S754_zero true -> eq_num b b' -> (u + b)%float = (u + b')%float.
Proof.
  intros Hu H. apply eqb_key in H as (Hb & Hb' & K).
  destruct (key_inj _ _ Hb Hb' K) as [->|[Z Z']]; [reflexivity|].
  now apply add_zero_sign.
Qed.

Lemma zero_add_not_negative_zero a : Prim2SF (0 + a)%float <> S754_zero true.
Proof.
  rewrite FloatAxioms.add_spec, Prim2SF_zero. unfold SF64add, SFadd.
  destruct (Prim2SF a) as [[|]|[|]| |sa ma ea]; discriminate.
Qed.

(** The sum of at most two elements is the same for numerically equal
    elements. *)
Lemma sum_eq_num l l' :
  Forall2 eq_num l l' -> (length l <= 2)%nat -> sum l = sum l'.
Proof.
  intros H Hn. unfold sum.
  destruct H as [|a a' l l' Ha H]; [reflexivity|].
  destruct H as [|b b' l l' Hb H]; simpl.
  - apply add_eq_num_r; [|assumption]. rewrite Prim2SF_zero. discriminate.
  - destruct H; [|simpl in Hn; lia]. simpl.
    rewrite (add_eq_num_r 0 a a'); [|rewrite Prim2SF_zero; discriminate|assumption].
    apply add_eq_num_r; [|assumption]. apply zero_add_not_negative_zero.
Qed.

End NumFacts.

(** ** The median *)

Section MedianFacts.
Import Statistics.

Lemma keys_eq_num s s' :
  all_numbers s -> all_numbers s' -> map key s = map key s' ->
  Forall2 eq_num s s'.
Proof.
  intros Hs. revert s'.
  induction Hs as [|x s Hx Hs IH]; intros [|y s'] Hs' E; simpl in E;
    try discriminate; constructor.
  - apply Forall_cons in Hs' as [Hy _]. injection E as E _.
    apply eqb_key. auto.
  - apply Forall_cons in Hs' as [_ Hs']. injection E as _ E. auto.
Qed.

Lemma central_length s : (length (central s) <= 2)%nat.
Proof. unfold central. rewrite length_take. lia. Qed.

Lemma central_eq_num s s' :
  Forall2 eq_num s s' -> Forall2 eq_num (central s) (central s').
Proof.
  intros H. unfold central. rewrite <- (Forall2_length _ _ _ H).
  now apply Forall2_take, Forall2_drop.
Qed.

(** The two central elements of a sequence of even length. *)
Lemma central_even s :
  Nat.odd (length s) = false -> s <> [] ->
  central s = [nth (length s / 2 - 1) s nan; nth (length s / 2) s nan].
Proof.
  intros Hodd Hne. unfold central.
  set (n := length s) in *.
  assert (Hn : (2 <= n)%nat).
  { destruct s as [|a [|b s]]; [congruence|discriminate|]. subst n. simpl. lia. }
  assert (Hk : (n / 2 - 1 + 1 = n / 2)%nat).
  { assert (1 <= n / 2)%nat by (apply Nat.div_le_lower_bound; lia). lia. }
  assert (Hlt : (n / 2 < n)%nat) by (apply Nat.div_lt; lia).
  destruct (lookup_lt_is_Some_2 s (n / 2 - 1)) as [a Ha]; [subst n; lia|].
  destruct (lookup_lt_is_Some_2 s (n / 2)) as [b Hb]; [subst n; lia|].
  rewrite !nth_lookup, Ha, Hb.
  rewrite (drop_S _ _ _ Ha).
  replace (S (n / 2 - 1)) with (n / 2)%nat by lia.
  rewrite (drop_S _ _ _ Hb). reflexivity.
Qed.

(** The middle of numerically equal sequences. *)
Lemma middle_eq_num s s' :
  Forall2 eq_num s s' -> same_value (middle s) (middle s') = true.
Proof.
  intros H. unfold middle. rewrite <- (Forall2_length _ _ _ H).
  destruct (Nat.odd (length s)) eqn:Hodd.
  - assert (Hlt : (length s / 2 < length s)%nat).
    { apply Nat.div_lt; [|lia]. destruct s; [discriminate|simpl; lia]. }
    destruct (lookup_lt_is_Some_2 s _ Hlt) as [a Ha].
    destruct (Forall2_lookup_l _ _ _ _ _ H Ha) as (b & Hb & Hab).
    rewrite !nth_lookup, Ha, Hb. simpl. now apply eq_num_same_value.
  - unfold mean.
    rewrite (sum_eq_num _ _ (central_eq_num _ _ H) (central_length s)).
    rewrite (Forall2_length _ _ _ (central_eq_num _ _ H)).
    apply same_value_refl.
Qed.

(** The median is the middle of any ascending arrangement. *)
Lemma median_of_ascending xs s :
  ascending s -> Permutation s xs ->
  same_value (median xs) (middle s) = true.
Proof.
  intros Hs Hp. unfold median.
  destruct (Nat.eq_dec (length s) 1%nat) as [H1|H1].
  - destruct s as [|x [|y s]]; try discriminate.
    apply Permutation_singleton_l in Hp. subst xs. simpl.
    apply same_value_refl.
  - pose proof (ascending_numbers _ Hs H1) as Hn.
    assert (Hx : all_numbers xs) by (eapply Permutation_Forall; eassumption).
    apply middle_eq_num, keys_eq_num; auto using sort_asc_numbers.
    apply ascending_unique_keys; auto using sort_asc_sorted.
    rewrite sort_asc_perm. now symmetry.
Qed.

End MedianFacts.

(** ** The mode *)

Section ModeFacts.
Import Statistics.



















End ModeFacts.

(** ** The store and the facade *)

Section StoreFacts.

Lemma deref_alloc h xs : deref (h ++ [xs]) (length h) = xs.
Proof. unfold deref. now rewrite list_lookup_middle. Qed.

Lemma lookup_alloc_old (h : heap) xs (a : loc) :
  (a < length h)%nat -> (h ++ [xs]) !! a = h !! a.
Proof. intros H. now rewrite lookup_app_l. Qed.

Lemma insert_alloc (h : heap) xs ys : <[length h := ys]> (h ++ [xs]) = h ++ [ys].
Proof.
  replace (length h) with (length h + 0)%nat at 1 by lia.
  now rewrite insert_app_r.
Qed.

End StoreFacts.

Section FacadeFacts.
Context {P : Type} `{NumberProvider P}.

(** What the engine calls return, and what they leave in the store. *)
Lemma mean_call {S} (numbers : loc) (st : S) h :
  StatisticsCalls.mean numbers st h =
  (Fulfilled (Statistics.mean (deref h numbers)), st, h).
Proof. reflexivity. Qed.

Lemma median_call {S} (numbers : loc) (st : S) h :
  StatisticsCalls.median numbers st h =
  (Fulfilled (Statistics.median (deref h numbers)), st,
   h ++ [Statistics.sort_asc (deref h numbers)]).
Proof.
  unfold StatisticsCalls.median, StatisticsCalls.sort_in_place, await, spread, alloc.
  rewrite deref_alloc, insert_alloc, deref_alloc. reflexivity.
Qed.

Lemma mode_call {S} (numbers : loc) (st : S) h :
  StatisticsCalls.mode numbers st h =
  (Fulfilled (length h), st, h ++ [Statistics.mode (deref h numbers)]).
Proof. reflexivity. Qed.

(** The facade when the fetch is fulfilled. *)
Lemma computeMeanOfFile_fulfilled (p p' : P) h h' numbers :
  readNumbers p h = (Fulfilled numbers, p', h') ->
  computeMeanOfFile (mkAverage p) h =
  (Fulfilled (Statistics.mean (deref h' numbers)), mkAverage p', h').
Proof.
  intros E. unfold computeMeanOfFile, await, this_readNumbers. simpl.
  rewrite E. apply mean_call.
Qed.

Lemma computeMedianOfFile_fulfilled (p p' : P) h h' numbers :
  readNumbers p h = (Fulfilled numbers, p', h') ->
  computeMedianOfFile (mkAverage p) h =
  (Fulfilled (Statistics.median (deref h' numbers)), mkAverage p',
   h' ++ [Statistics.sort_asc (deref h' numbers)]).
Proof.
  intros E. unfold computeMedianOfFile, await at 1, this_readNumbers. simpl.
  rewrite E. apply median_call.
Qed.

Lemma computeModeOfFile_fulfilled (p p' : P) h h' numbers :
  readNumbers p h = (Fulfilled numbers, p', h') ->
  computeModeOfFile (mkAverage p) h =
  (Fulfilled (length h'), mkAverage p',
   h' ++ [Statistics.mode (deref h' numbers)]).
Proof.
  intros E. unfold computeModeOfFile, await, this_readNumbers. simpl.
  rewrite E. apply mode_call.
Qed.

(** The facade when the fetch is rejected. *)
Lemma computeMeanOfFile_rejected (p p' : P) h h' e :
  readNumbers p h = (Rejected e, p', h') ->
  computeMeanOfFile (mkAverage p) h = (Rejected e, mkAverage p', h').
Proof.
  intros E. unfold computeMeanOfFile, await, this_readNumbers. simpl.
  now rewrite E.
Qed.

Lemma computeMedianOfFile_rejected (p p' : P) h h' e :
  readNumbers p h = (Rejected e, p', h') ->
  computeMedianOfFile (mkAverage p) h = (Rejected e, mkAverage p', h').
Proof.
  intros E. unfold computeMedianOfFile, await at 1, this_readNumbers. simpl.
  now rewrite E.
Qed.

Lemma computeModeOfFile_rejected (p p' : P) h h' e :
  readNumbers p h = (Rejected e, p', h') ->
  computeModeOfFile (mkAverage p) h = (Rejected e, mkAverage p', h').
Proof.
  intros E. unfold computeModeOfFile, await, this_readNumbers. simpl.
  now rewrite E.
Qed.

End FacadeFacts.

(** ** Not-a-number among the elements *)

Section NanFacts.
Import Statistics.



























End NanFacts.

(** * The claims *)

Section EngineClaims.
Import Statistics.

Lemma sum_snoc l x : sum (l ++ [x]) = (sum l + x)%float.
Proof. unfold sum. now rewrite fold_left_app. Qed.








End EngineClaims.

Section FacadeClaims.
Import Statistics.

(** C3. Calling [median] on a non-empty array [numbers] returns the
    middle element of the elements sorted ascending when their count is
    odd, and the mean of the two central elements of the sorted sequence
    when it is even, whatever ascending arrangement [s] of the elements
    is taken; the array itself and every other array of the store are
    left as they were: a new array, a copy, is the one sorted. *)
Theorem median_middle_of_sorted_copy {S : Type} (st : S) (h : heap)
    (numbers : loc) (s : list number) :
  let xs := deref h numbers in
  let n := length xs in
  xs <> [] -> ascending s -> Permutation s xs ->
  exists v copy,
    StatisticsCalls.median numbers st h = (Fulfilled v, st, h ++ [copy])
    /\ Permutation copy xs
    /\ deref (h ++ [copy]) numbers = xs
    /\ (forall a : loc, (a < length h)%nat -> (h ++ [copy]) !! a = h !! a)
    /\ same_value v
         (if Nat.odd n then nth (n / 2) s nan
          else mean [nth (n / 2 - 1) s nan; nth (n / 2) s nan]) = true.
Proof.
  intros xs n Hne Hs Hp.
  exists (median xs), (sort_asc xs).
  assert (Hlt : (numbers < length h)%nat).
  { destruct (Nat.lt_ge_cases numbers (length h)) as [L|G]; [exact L|].
    exfalso. apply Hne. subst xs. unfold deref.
    now rewrite (lookup_ge_None_2 h numbers G). }
  split; [apply median_call|].
  split; [apply sort_asc_perm|].
  split; [unfold deref; now rewrite lookup_alloc_old|].
  split; [intros a Ha; now apply lookup_alloc_old|].
  pose proof (median_of_ascending xs s Hs Hp) as M.
  assert (Hlen : length s = n) by (subst n; now apply Permutation_length).
  assert (Hs_ne : s <> []) by (intros ->; apply Permutation_nil in Hp; auto).
  rewrite <- M. f_equal.
  unfold middle. rewrite Hlen.
  destruct (Nat.odd n) eqn:Hodd; [reflexivity|].
  rewrite central_even; rewrite ?Hlen; auto.
Qed.

Lemma median_middle_of_sorted_copy_witness :
  exists v copy,
    StatisticsCalls.median 0%nat tt [[7; 34; 2]]
    = (Fulfilled v, tt, [[7; 34; 2]] ++ [copy])
    /\ same_value v 7 = true.
Proof.
  destruct (median_middle_of_sorted_copy tt [[7; 34; 2]] 0%nat [2; 7; 34])
    as (v & copy & E & _ & _ & _ & V).
  - discriminate.
  - repeat constructor.
  - apply (Permutation_cons_append [7; 34] 2).
  - exists v, copy. split; [exact E|exact V].
Defined.

Context {P : Type} `{NumberProvider P}.

(** C4. The mean of a sequence is the sum of its elements, added from
    left to right in floating-point arithmetic, divided by their count;
    this is what [computeMeanOfFile] returns for the sequence fetched. *)
Theorem mean_sum_over_count (p p' : P) (h h' : heap) (numbers : loc) :
  let xs := deref h' numbers in
  readNumbers p h = (Fulfilled numbers, p', h') ->
  computeMeanOfFile (mkAverage p) h
  = (Fulfilled (sum xs / Num.of_nat (length xs))%float, mkAverage p', h')
  /\ mean xs = (sum xs / Num.of_nat (length xs))%float
  /\ sum [] = 0%float
  /\ (forall l x, sum (l ++ [x]) = (sum l + x)%float).
Proof.
  intros xs E.
  split; [now apply computeMeanOfFile_fulfilled|].
  split; [reflexivity|].
  split; [reflexivity|apply sum_snoc].
Qed.

(** C2. On the empty sequence the mean and the median are
    not-a-number and the mode is the empty sequence; the facade
    operations on a source that yields the empty sequence are fulfilled
    with these values, they are not rejected. *)
Theorem empty_sequence_results (p p' : P) (h h' : heap) (numbers : loc) :
  readNumbers p h = (Fulfilled numbers, p', h') ->
  deref h' numbers = [] ->
  isNaN (mean []) = true /\ isNaN (median []) = true /\ mode [] = []
  /\ (exists v, outcome (computeMeanOfFile (mkAverage p) h) = Fulfilled v
                /\ isNaN v = true)
  /\ (exists v, outcome (computeMedianOfFile (mkAverage p) h) = Fulfilled v
                /\ isNaN v = true)
  /\ (exists a, outcome (computeModeOfFile (mkAverage p) h) = Fulfilled a
                /\ deref (heap_after (computeModeOfFile (mkAverage p) h)) a = []).
Proof.
  intros E Hempty.
  split; [reflexivity|]. split; [reflexivity|]. split; [reflexivity|].
  split; [|split].
  - exists (mean []).
    rewrite (computeMeanOfFile_fulfilled _ _ _ _ _ E), Hempty. now split.
  - exists (median []).
    rewrite (computeMedianOfFile_fulfilled _ _ _ _ _ E), Hempty. now split.
  - exists (length h').
    rewrite (computeModeOfFile_fulfilled _ _ _ _ _ E), Hempty.
    split; [reflexivity|]. unfold heap_after. simpl. apply deref_alloc.
Qed.

End FacadeClaims.

Lemma mean_sum_over_count_witness :
  computeMeanOfFile (mkAverage (mkSimpleFake 0%nat)) [[1; 2; 3; 4; 5]]
  = (Fulfilled 3%float, mkAverage (mkSimpleFake 0%nat),
     [[1; 2; 3; 4; 5]; [1; 2; 3; 4; 5]]).
Proof.
  apply (mean_sum_over_count (mkSimpleFake 0%nat) (mkSimpleFake 0%nat)
           [[1; 2; 3; 4; 5]] [[1; 2; 3; 4; 5]; [1; 2; 3; 4; 5]] 1%nat).
  reflexivity.
Defined.

Lemma empty_sequence_results_witness :
  exists v,
    outcome (computeMeanOfFile (mkAverage (mkConfigurableStub 0%nat)) [[]])
    = Fulfilled v /\ isNaN v = true.
Proof.
  apply (empty_sequence_results (mkConfigurableStub 0%nat)
           (mkConfigurableStub 0%nat) [[]] [[]] 0%nat); reflexivity.
Defined.

(** ** The number sources *)

Section SourceFacts.

Lemma ConfigurableStub_readNumbers (this : ConfigurableStubNumberProvider) h :
  readNumbers this h = (Fulfilled (stubbedNumbers this), this, h).
Proof. reflexivity. Qed.

Lemma SimpleFake_readNumbers (this : SimpleFakeNumberProvider) h :
  readNumbers this h =
  (Fulfilled (length h), this, h ++ [deref h (fake_numbers this)]).
Proof. reflexivity. Qed.

Lemma Mock_readNumbers (this : MockNumberProvider) h :
  readNumbers this h =
  (Fulfilled (length h),
   mkMock (callCount this + 1) (expectedCalls this) (mock_numbers this),
   h ++ [deref h (mock_numbers this)]).
Proof. reflexivity. Qed.

Lemma SimpleMock_readNumbers (this : SimpleMockNumberProvider) h :
  readNumbers this h =
  (Fulfilled (length h), mkSimpleMock (simple_callCount this + 1),
   h ++ [[5; 10; 15; 20; 25]]).
Proof. reflexivity. Qed.

Lemma FakeFileSystem_readNumbers_stored (this : FakeFileSystemNumberProvider) h stored :
  fileSystem this !! currentPath this = Some stored ->
  readNumbers this h = (Fulfilled (length h), this, h ++ [deref h stored]).
Proof.
  intros E. unfold readNumbers, FakeFileSystem_provider,
    FakeFileSystem_readNumbers, hasFile, get_or_empty, await.
  now rewrite E.
Qed.

Lemma FakeFileSystem_readNumbers_missing (this : FakeFileSystemNumberProvider) h :
  fileSystem this !! currentPath this = None ->
  readNumbers this h = (Rejected (file_not_found (currentPath this)), this, h).
Proof.
  intros E. unfold readNumbers, FakeFileSystem_provider,
    FakeFileSystem_readNumbers, hasFile, get_or_empty, await.
  now rewrite E.
Qed.

(** A source that copies: a mutation of the array received is not seen by
    the source, whose own array is another one. *)
Lemma SimpleFake_copy_is_independent (this : SimpleFakeNumberProvider) h x :
  (fake_numbers this < length h)%nat ->
  let r := readNumbers this h in
  outcome r = Fulfilled (length h)
  /\ deref (push (length h) x (heap_after r)) (fake_numbers this)
     = deref h (fake_numbers this).
Proof.
  intros Hlt r. split; [reflexivity|].
  unfold r, heap_after, push, deref. simpl.
  rewrite list_lookup_insert_ne by lia.
  now rewrite lookup_alloc_old.
Qed.

(** The files of a new fake file system. *)
Lemma new_FakeFileSystem_files h path :
  is_Some (fileSystem (new_FakeFileSystemNumberProvider h).1 !! path) <->
  path = "/path/to/an/empty/file" \/ path = "/path/to/some/other/file"
  \/ path = "C:\test-data\third-file.txt".
Proof.
  unfold new_FakeFileSystemNumberProvider, FakeFileSystem_constructor, addFile,
    await, array_literal, spread, alloc, state_after. simpl.
  rewrite !lookup_insert_is_Some', lookup_empty. split.
  - intros [<-|[<-|[<-|[x Hx]]]]; auto. discriminate.
  - intros [->|[->| ->]]; auto.
Qed.

Lemma new_FakeFileSystem_currentPath h :
  currentPath (new_FakeFileSystemNumberProvider h).1 = "".
Proof. reflexivity. Qed.

End SourceFacts.

Section SourceClaims.
Context {P : Type} `{NumberProvider P}.

(** C5. Each facade operation performs one fetch: the source is left in
    the state one [readNumbers] leaves it in.  On the counting mock each
    operation adds one to the call count, and the three operations one
    after the other on one facade over a new mock leave a count of three. *)
Theorem one_fetch_per_operation (p : P) (h : heap)
    (mock : SimpleMockNumberProvider) :
  numberProvider (state_after (computeMeanOfFile (mkAverage p) h))
  = state_after (readNumbers p h)
  /\ numberProvider (state_after (computeMedianOfFile (mkAverage p) h))
     = state_after (readNumbers p h)
  /\ numberProvider (state_after (computeModeOfFile (mkAverage p) h))
     = state_after (readNumbers p h)
  /\ SimpleMock_getCallCount
       (numberProvider (state_after (computeMeanOfFile (mkAverage mock) h)))
     = (SimpleMock_getCallCount mock + 1)%float
  /\ SimpleMock_getCallCount
       (numberProvider (state_after (computeMedianOfFile (mkAverage mock) h)))
     = (SimpleMock_getCallCount mock + 1)%float
  /\ SimpleMock_getCallCount
       (numberProvider (state_after (computeModeOfFile (mkAverage mock) h)))
     = (SimpleMock_getCallCount mock + 1)%float
  /\ (let r1 := computeMeanOfFile (mkAverage new_SimpleMockNumberProvider) h in
      let r2 := computeMedianOfFile (state_after r1) (heap_after r1) in
      let r3 := computeModeOfFile (state_after r2) (heap_after r2) in
      SimpleMock_getCallCount (numberProvider (state_after r1)) = 1%float
      /\ SimpleMock_getCallCount (numberProvider (state_after r2)) = 2%float
      /\ SimpleMock_getCallCount (numberProvider (state_after r3)) = 3%float
      /\ SimpleMock_wasCalledExactly 3 (numberProvider (state_after r3)) = true).
Proof.
  assert (G : forall (q : P) k,
    numberProvider (state_after (computeMeanOfFile (mkAverage q) k))
    = state_after (readNumbers q k)
    /\ numberProvider (state_after (computeMedianOfFile (mkAverage q) k))
       = state_after (readNumbers q k)
    /\ numberProvider (state_after (computeModeOfFile (mkAverage q) k))
       = state_after (readNumbers q k)).
  { intros q k. destruct (readNumbers q k) as [[[a|e] q'] k'] eqn:E.
    - rewrite (computeMeanOfFile_fulfilled _ _ _ _ _ E),
        (computeMedianOfFile_fulfilled _ _ _ _ _ E),
        (computeModeOfFile_fulfilled _ _ _ _ _ E). auto.
    - rewrite (computeMeanOfFile_rejected _ _ _ _ _ E),
        (computeMedianOfFile_rejected _ _ _ _ _ E),
        (computeModeOfFile_rejected _ _ _ _ _ E). auto. }
  destruct (G p h) as (G1 & G2 & G3).
  split; [exact G1|]. split; [exact G2|]. split; [exact G3|].
  pose proof (SimpleMock_readNumbers mock h) as E.
  split; [now rewrite (computeMeanOfFile_fulfilled _ _ _ _ _ E)|].
  split; [now rewrite (computeMedianOfFile_fulfilled _ _ _ _ _ E)|].
  split; [now rewrite (computeModeOfFile_fulfilled _ _ _ _ _ E)|].
  pose proof (SimpleMock_readNumbers new_SimpleMockNumberProvider h) as E1.
  rewrite (computeMeanOfFile_fulfilled _ _ _ _ _ E1).
  unfold state_after, heap_after. cbn [fst snd].
  match goal with |- context [computeMedianOfFile (mkAverage ?q) ?k] =>
    pose proof (SimpleMock_readNumbers q k) as E2 end.
  rewrite (computeMedianOfFile_fulfilled _ _ _ _ _ E2). cbn [fst snd].
  match goal with |- context [computeModeOfFile (mkAverage ?q) ?k] =>
    pose proof (SimpleMock_readNumbers q k) as E3 end.
  rewrite (computeModeOfFile_fulfilled _ _ _ _ _ E3). cbn [fst snd].
  repeat split; reflexivity.
Qed.

(** C6. When the fetch is rejected, each facade operation is rejected
    with the same error and does nothing else; the error of the fake file
    system, for a current path that is no stored key, carries that path in
    its message. *)
Theorem fetch_failure_propagates (p p' : P) (h h' : heap) (e : Error)
    (fs : FakeFileSystemNumberProvider) (k : heap) :
  readNumbers p h = (Rejected e, p', h') ->
  computeMeanOfFile (mkAverage p) h = (Rejected e, mkAverage p', h')
  /\ computeMedianOfFile (mkAverage p) h = (Rejected e, mkAverage p', h')
  /\ computeModeOfFile (mkAverage p) h = (Rejected e, mkAverage p', h')
  /\ (fileSystem fs !! currentPath fs = None ->
      readNumbers fs k = (Rejected (file_not_found (currentPath fs)), fs, k)
      /\ message (file_not_found (currentPath fs))
         = String.append "File not found: " (currentPath fs)
      /\ computeMeanOfFile (mkAverage fs) k
         = (Rejected (file_not_found (currentPath fs)), mkAverage fs, k)
      /\ computeMedianOfFile (mkAverage fs) k
         = (Rejected (file_not_found (currentPath fs)), mkAverage fs, k)
      /\ computeModeOfFile (mkAverage fs) k
         = (Rejected (file_not_found (currentPath fs)), mkAverage fs, k)).
Proof.
  intros E.
  split; [now apply computeMeanOfFile_rejected|].
  split; [now apply computeMedianOfFile_rejected|].
  split; [now apply computeModeOfFile_rejected|].
  intros Hmiss.
  pose proof (FakeFileSystem_readNumbers_missing fs k Hmiss) as F.
  split; [exact F|]. split; [reflexivity|].
  split; [now apply computeMeanOfFile_rejected|].
  split; [now apply computeMedianOfFile_rejected|].
  now apply computeModeOfFile_rejected.
Qed.

End SourceClaims.

Lemma fetch_failure_propagates_witness :
  let fs := state_after
              (setCurrentPath "/non/existent/file.txt"
                 (new_FakeFileSystemNumberProvider []).1
                 (new_FakeFileSystemNumberProvider []).2) in
  let k := (new_FakeFileSystemNumberProvider []).2 in
  computeMeanOfFile (mkAverage fs) k
  = (Rejected (mkError "File not found: /non/existent/file.txt"),
     mkAverage fs, k).
Proof.
  intros fs k.
  destruct (fetch_failure_propagates fs fs k k
              (mkError "File not found: /non/existent/file.txt") fs k)
    as (M & _); [reflexivity|exact M].
Defined.

(** C7 (not kept by the code). The configurable stub resolves with the
    array it holds, not with a copy: on a stub holding [[1, 2, 3]], the
    array a first fetch returns is the stub's own, and after the caller
    pushes [999] onto it a second fetch returns [[1, 2, 3, 999]].  The
    simple fake, which copies, returns a new array and still holds
    [[1, 2, 3]] after the same mutation. *)
Theorem configurable_stub_returns_its_own_array :
  let h := [[1; 2; 3]] in
  let stub := mkConfigurableStub 0%nat in
  let fetch1 := readNumbers stub h in
  let mutated := push 0%nat 999 (heap_after fetch1) in
  let fetch2 := readNumbers (state_after fetch1) mutated in
  let fake := mkSimpleFake 0%nat in
  let fake1 := readNumbers fake h in
  let fake_mutated := push 1%nat 999 (heap_after fake1) in
  let fake2 := readNumbers (state_after fake1) fake_mutated in
  outcome fetch1 = Fulfilled (stubbedNumbers stub)
  /\ outcome fetch2 = Fulfilled 0%nat
  /\ deref (heap_after fetch2) 0%nat = [1; 2; 3; 999]
  /\ deref mutated (stubbedNumbers stub) = [1; 2; 3; 999]
  /\ outcome fake1 = Fulfilled 1%nat
  /\ outcome fake2 = Fulfilled 2%nat
  /\ deref (heap_after fake2) 2%nat = [1; 2; 3]
  /\ deref fake_mutated (fake_numbers fake) = [1; 2; 3].
Proof. repeat split; reflexivity. Qed.

(** C9. [verify] throws exactly when the call count differs from the
    expected count, with the message naming both; it returns normally when
    they are equal; either way the mock and the store are as before.  The
    call count is [0] for a new mock and each [readNumbers] adds one to
    it; the expected count is the one given at construction, [1] when
    none is given. *)
Theorem verify_throws_iff_counts_differ (toString : number -> string)
    (this : MockNumberProvider) (h : heap) :
  let r := verify toString this h in
  ((exists e, outcome r = Rejected e) <->
   strict_neq (callCount this) (expectedCalls this) = true)
  /\ (outcome r = Fulfilled tt <->
      strict_eq (callCount this) (expectedCalls this) = true)
  /\ outcome r
     = (if strict_neq (callCount this) (expectedCalls this)
        then Rejected (mkError (verify_message toString this))
        else Fulfilled tt)
  /\ state_after r = this
  /\ heap_after r = h
  /\ callCount (state_after (readNumbers this h)) = (callCount this + 1)%float
  /\ expectedCalls (state_after (readNumbers this h)) = expectedCalls this
  /\ (forall numbers expected,
        callCount (new_MockNumberProvider numbers expected) = 0%float
        /\ expectedCalls (new_MockNumberProvider numbers expected)
           = default 1%float expected).
Proof.
  intros r. subst r. unfold verify, strict_neq, strict_eq, outcome, state_after,
    heap_after.
  destruct (callCount this =? expectedCalls this)%float eqn:E; simpl.
  - split; [split; [intros [e He]; discriminate|discriminate]|].
    split; [split; reflexivity|]. repeat split; reflexivity.
  - split; [split; [reflexivity|intros _; eexists; reflexivity]|].
    split; [split; discriminate|]. repeat split; reflexivity.
Qed.

(** C10, as the code has it.  A new fake file system has the empty
    string as current path and stores the three paths of its constructor,
    none of them empty, so [readNumbers] rejects with "File not found: ";
    after [setCurrentPath path] on it, [readNumbers] resolves exactly when
    [path] is one of the three.  In general [readNumbers] resolves exactly
    when the current path is a key of the file map, with a new array
    holding the stored numbers, and rejects otherwise with the current
    path in the message, leaving the source and the store as they were;
    [addFile path] makes [path] a key, whatever [path] is, and changes
    neither the current path nor the other keys. *)
Theorem fake_file_system_readNumbers (this : FakeFileSystemNumberProvider)
    (h h0 : heap) (path : string) (numbers : loc) :
  let fresh := (new_FakeFileSystemNumberProvider h0).1 in
  let selected := state_after (setCurrentPath path fresh h) in
  let added := state_after (addFile path numbers this h) in
  currentPath fresh = ""
  /\ fileSystem fresh !! "" = None
  /\ readNumbers fresh h = (Rejected (mkError "File not found: "), fresh, h)
  /\ ((exists a, outcome (readNumbers selected h) = Fulfilled a) <->
      path = "/path/to/an/empty/file" \/ path = "/path/to/some/other/file"
      \/ path = "C:\test-data\third-file.txt")
  /\ ((exists a, outcome (readNumbers this h) = Fulfilled a) <->
      is_Some (fileSystem this !! currentPath this))
  /\ (forall stored, fileSystem this !! currentPath this = Some stored ->
        readNumbers this h = (Fulfilled (length h), this, h ++ [deref h stored])
        /\ h !! length h = None)
  /\ (fileSystem this !! currentPath this = None ->
        readNumbers this h
        = (Rejected (mkError (String.append "File not found: " (currentPath this))),
           this, h))
  /\ is_Some (fileSystem added !! path)
  /\ currentPath added = currentPath this
  /\ (forall q, q <> path -> fileSystem added !! q = fileSystem this !! q).
Proof.
  intros fresh selected added.
  assert (Hnone : fileSystem fresh !! "" = None).
  { destruct (fileSystem fresh !! "") eqn:E; [|reflexivity].
    assert (S : is_Some (fileSystem fresh !! "")) by (rewrite E; eauto).
    apply new_FakeFileSystem_files in S. destruct S as [S|[S|S]]; discriminate. }
  assert (Hgen : forall q k,
    (exists a, outcome (readNumbers q k) = Fulfilled a) <->
    is_Some (fileSystem q !! currentPath q)).
  { intros q k. destruct (fileSystem q !! currentPath q) as [stored|] eqn:E.
    - rewrite (FakeFileSystem_readNumbers_stored q k stored E). split; eauto.
    - rewrite (FakeFileSystem_readNumbers_missing q k E). split.
      + intros [a Ha]. discriminate.
      + intros [a Ha]. discriminate. }
  split; [reflexivity|]. split; [exact Hnone|].
  split; [exact (FakeFileSystem_readNumbers_missing fresh h Hnone)|].
  split; [rewrite Hgen; apply new_FakeFileSystem_files|].
  split; [apply Hgen|].
  split.
  { intros stored E. split; [now apply FakeFileSystem_readNumbers_stored|].
    apply lookup_ge_None_2. lia. }
  split; [apply FakeFileSystem_readNumbers_missing|].
  subst added. unfold addFile, await, spread, alloc, state_after. simpl.
  split; [rewrite lookup_insert_eq; eauto|].
  split; [reflexivity|].
  intros q Hq. now rewrite lookup_insert_ne.
Qed.

(** C10, the claim as stated fails: on a new fake file system, with no
    call of [setCurrentPath], [addFile] with the empty path makes the
    empty string a stored key and [readNumbers] resolves. *)
Lemma empty_path_can_be_stored :
  let fresh := new_FakeFileSystemNumberProvider [] in
  let added := addFile "" 2%nat fresh.1 fresh.2 in
  let fetch := readNumbers (state_after added) (heap_after added) in
  currentPath (state_after added) = ""
  /\ fileSystem (state_after added) !! "" = Some 6%nat
  /\ outcome fetch = Fulfilled 7%nat
  /\ deref (heap_after fetch) 7%nat = [1; 2; 3; 4; 5].
Proof. repeat split; reflexivity. Qed.

(** * The scenarios of the test module, run on the model *)

Section Scenarios.
Import Statistics.

Example mean_simple_fake :
  outcome (computeMeanOfFile (mkAverage (mkSimpleFake 0%nat)) [[1; 2; 3; 4; 5]])
  = Fulfilled 3%float.
Proof. reflexivity. Qed.

Example median_simple_fake :
  outcome (computeMedianOfFile (mkAverage (mkSimpleFake 0%nat)) [[1; 3; 2; 5; 4]])
  = Fulfilled 3%float.
Proof. reflexivity. Qed.

Example mean_fake_file_system_existing_file :
  let fs := new_FakeFileSystemNumberProvider [] in
  let sel := setCurrentPath "/path/to/some/other/file" fs.1 fs.2 in
  outcome (computeMeanOfFile (mkAverage (state_after sel)) (heap_after sel))
  = Fulfilled 3%float.
Proof. reflexivity. Qed.

Example mode_fake_file_system_custom_data :
  let fs := new_FakeFileSystemNumberProvider [] in
  let lit := alloc [1; 1; 2; 2; 2; 3] fs.2 in
  let add := addFile "/test/mode-data.txt" lit.1 fs.1 lit.2 in
  let sel := setCurrentPath "/test/mode-data.txt" (state_after add) (heap_after add) in
  let r := computeModeOfFile (mkAverage (state_after sel)) (heap_after sel) in
  exists a, outcome r = Fulfilled a /\ deref (heap_after r) a = [2].
Proof. eexists. split; reflexivity. Qed.

Example median_fake_file_system_empty_file :
  let fs := new_FakeFileSystemNumberProvider [] in
  let sel := setCurrentPath "/path/to/an/empty/file" fs.1 fs.2 in
  exists v,
    outcome (computeMedianOfFile (mkAverage (state_after sel)) (heap_after sel))
    = Fulfilled v /\ isNaN v = true.
Proof. eexists. split; reflexivity. Qed.

Example mean_hard_coded_stub :
  outcome (computeMeanOfFile (mkAverage mkHardCodedStub) []) = Fulfilled 20%float.
Proof. reflexivity. Qed.

Example median_hard_coded_stub :
  outcome (computeMedianOfFile (mkAverage mkHardCodedStub) []) = Fulfilled 20%float.
Proof. reflexivity. Qed.

Example mode_configurable_stub :
  let r := computeModeOfFile (mkAverage (mkConfigurableStub 0%nat)) [[1; 1; 2; 2; 3]] in
  exists a, outcome r = Fulfilled a /\ deref (heap_after r) a = [1; 2].
Proof. eexists. split; reflexivity. Qed.

Example mean_mock_verifies_single_call (toString : number -> string) :
  let mock := new_MockNumberProvider 0%nat (Some 1%float) in
  let r := computeMeanOfFile (mkAverage mock) [[10; 20; 30]] in
  outcome r = Fulfilled 20%float
  /\ outcome (verify toString (numberProvider (state_after r)) (heap_after r))
     = Fulfilled tt.
Proof. split; reflexivity. Qed.

Example mode_all_values_once :
  mode [5; 10; 15; 20; 25] = [5; 10; 15; 20; 25].
Proof. reflexivity. Qed.

Example mode_of_spied_numbers : mode [2; 2; 3; 3; 3; 1] = [3].
Proof. reflexivity. Qed.

Example median_even_count : median [1; 2; 3; 4] = 2.5%float.
Proof. reflexivity. Qed.

End Scenarios.

(** * Further properties of the number sources *)

Section MoreStoreFacts.

Lemma deref_app_old (h k : heap) (a : loc) :
  (a < length h)%nat -> deref (h ++ k) a = deref h a.
Proof. intros H. unfold deref. now rewrite lookup_app_l. Qed.

Lemma deref_assign_other (h : heap) (a b : loc) ys :
  a <> b -> deref (assign b ys h) a = deref h a.
Proof. intros H. unfold deref, assign. now rewrite list_lookup_insert_ne. Qed.

Lemma deref_assign_same (h : heap) (a : loc) ys :
  (a < length h)%nat -> deref (assign a ys h) a = ys.
Proof. intros H. unfold deref, assign. now rewrite list_lookup_insert_eq. Qed.

Lemma length_assign (h : heap) (a : loc) ys : length (assign a ys h) = length h.
Proof. unfold assign. apply length_insert. Qed.

Lemma addFile_result (this : FakeFileSystemNumberProvider) h path numbers :
  addFile path numbers this h =
  (Fulfilled tt,
   mkFakeFileSystem (<[path := length h]> (fileSystem this)) (currentPath this),
   h ++ [deref h numbers]).
Proof. reflexivity. Qed.

Lemma hasFile_true (this : FakeFileSystemNumberProvider) path :
  hasFile path this = true <-> is_Some (fileSystem this !! path).
Proof. unfold hasFile. apply bool_decide_eq_true. Qed.

End MoreStoreFacts.

Section FakeFileSystemProperties.

(** X1. [addFile] stores a copy of the array it is given: the stored
    array is a new one, and whatever the caller does to its own array
    afterwards, a fetch of that path yields the numbers the array held
    when the file was added. *)
Theorem addFile_stores_a_copy (this : FakeFileSystemNumberProvider)
    (h : heap) (path : string) (numbers : loc) (ys : list number) :
  (numbers < length h)%nat ->
  let added := addFile path numbers this h in
  let selected :=
    state_after (setCurrentPath path (state_after added) (heap_after added)) in
  let mutated := assign numbers ys (heap_after added) in
  let fetch := readNumbers selected mutated in
  (exists stored, fileSystem (state_after added) !! path = Some stored
                  /\ stored <> numbers /\ h !! stored = None)
  /\ deref mutated numbers = ys
  /\ exists a, outcome fetch = Fulfilled a
               /\ a <> numbers
               /\ deref (heap_after fetch) a = deref h numbers.
Proof.
  intros Hlt added selected mutated fetch.
  subst fetch mutated selected added. rewrite addFile_result.
  unfold state_after, heap_after, setCurrentPath. cbn [fst snd fileSystem currentPath].
  set (k := assign numbers ys (h ++ [deref h numbers])).
  assert (Hlen : length k = S (length h)).
  { subst k. rewrite length_assign, length_app. simpl. lia. }
  split.
  { exists (length h). rewrite lookup_insert_eq.
    split; [reflexivity|]. split; [lia|]. apply lookup_ge_None_2. lia. }
  split.
  { subst k. apply deref_assign_same. rewrite length_app. lia. }
  match goal with |- context [readNumbers ?q k] =>
    assert (E : fileSystem q !! currentPath q = Some (length h))
      by (cbn; apply lookup_insert_eq);
    rewrite (FakeFileSystem_readNumbers_stored q k _ E) end.
  cbn [fst snd].
  exists (length k). split; [reflexivity|].
  split; [lia|].
  rewrite deref_alloc. subst k.
  rewrite deref_assign_other by lia. apply deref_alloc.
Qed.

Lemma addFile_stores_a_copy_witness :
  let added := addFile "/data/set1.txt" 0%nat (mkFakeFileSystem ∅ "") [[10; 20; 30]] in
  let selected :=
    state_after (setCurrentPath "/data/set1.txt" (state_after added) (heap_after added)) in
  let mutated := assign 0%nat [] (heap_after added) in
  let fetch := readNumbers selected mutated in
  exists a, outcome fetch = Fulfilled a
            /\ a <> 0%nat
            /\ deref (heap_after fetch) a = [10; 20; 30].
Proof.
  intros added selected mutated fetch.
  apply (addFile_stores_a_copy (mkFakeFileSystem ∅ "") [[10; 20; 30]]
           "/data/set1.txt" 0%nat []).
  simpl. lia.
Defined.

(** X2. Adding a file under a path that is stored already replaces it:
    a fetch of that path yields the numbers of the array added last. *)
Theorem addFile_latest_wins (this : FakeFileSystemNumberProvider)
    (h : heap) (path : string) (first second : loc) :
  (second < length h)%nat ->
  let added1 := addFile path first this h in
  let added2 := addFile path second (state_after added1) (heap_after added1) in
  let selected :=
    state_after (setCurrentPath path (state_after added2) (heap_after added2)) in
  let fetch := readNumbers selected (heap_after added2) in
  exists a, outcome fetch = Fulfilled a
            /\ deref (heap_after fetch) a = deref h second.
Proof.
  intros Hlt added1 added2 selected fetch.
  subst fetch selected added2 added1. rewrite !addFile_result.
  unfold state_after, heap_after, setCurrentPath. cbn [fst snd fileSystem currentPath].
  rewrite ?addFile_result. cbn [fst snd fileSystem currentPath].
  match goal with |- context [readNumbers ?q ?k] =>
    assert (E : fileSystem q !! currentPath q
                = Some (length (h ++ [deref h first])))
      by (cbn; apply lookup_insert_eq);
    rewrite (FakeFileSystem_readNumbers_stored q k _ E) end.
  cbn [fst snd].
  eexists. split; [reflexivity|].
  rewrite deref_alloc, deref_alloc. apply deref_app_old. exact Hlt.
Qed.

Lemma addFile_latest_wins_witness :
  let h := [[1; 2]; [3; 4; 5]] in
  let this := mkFakeFileSystem ∅ "" in
  let added1 := addFile "/f" 0%nat this h in
  let added2 := addFile "/f" 1%nat (state_after added1) (heap_after added1) in
  let selected :=
    state_after (setCurrentPath "/f" (state_after added2) (heap_after added2)) in
  let fetch := readNumbers selected (heap_after added2) in
  exists a, outcome fetch = Fulfilled a
            /\ deref (heap_after fetch) a = [3; 4; 5].
Proof.
  intros h this added1 added2 selected fetch.
  apply (addFile_latest_wins this h "/f" 0%nat 1%nat). simpl. lia.
Defined.

(** X3. Adding a file leaves the other files as they were: a fetch of
    another stored path yields the same numbers before and after. *)
Theorem addFile_keeps_other_files (this : FakeFileSystemNumberProvider)
    (h : heap) (path : string) (numbers stored : loc) :
  currentPath this <> path ->
  fileSystem this !! currentPath this = Some stored ->
  (stored < length h)%nat ->
  let added := addFile path numbers this h in
  let before := readNumbers this h in
  let after := readNumbers (state_after added) (heap_after added) in
  exists a b, outcome before = Fulfilled a /\ outcome after = Fulfilled b
              /\ deref (heap_after after) b = deref (heap_after before) a
              /\ deref (heap_after before) a = deref h stored.
Proof.
  intros Hne E Hlt added before after.
  subst after before added. rewrite addFile_result.
  unfold outcome, state_after, heap_after. cbn [fst snd].
  rewrite (FakeFileSystem_readNumbers_stored _ _ _ E).
  match goal with |- context [readNumbers ?q ?k] =>
    assert (E' : fileSystem q !! currentPath q = Some stored)
      by (cbn; rewrite lookup_insert_ne; auto);
    rewrite (FakeFileSystem_readNumbers_stored q k stored E') end.
  cbn [fst snd]. do 2 eexists. split; [reflexivity|]. split; [reflexivity|].
  rewrite !deref_alloc. split; [|reflexivity].
  now apply deref_app_old.
Qed.

Lemma addFile_keeps_other_files_witness :
  let fs := new_FakeFileSystemNumberProvider [] in
  let this := state_after (setCurrentPath "/path/to/some/other/file" fs.1 fs.2) in
  let added := addFile "/data/set1.txt" 4%nat this fs.2 in
  let after := readNumbers (state_after added) (heap_after added) in
  exists b, outcome after = Fulfilled b
            /\ deref (heap_after after) b = [1; 2; 3; 4; 5].
Proof.
  intros fs this added after.
  destruct (addFile_keeps_other_files this fs.2 "/data/set1.txt" 4%nat 3%nat)
    as (a & b & _ & B & Eab & Ea).
  - discriminate.
  - reflexivity.
  - simpl. lia.
  - exists b. split; [exact B|exact (eq_trans Eab Ea)].
Defined.

(** X4. [hasFile path] tells whether a fetch would resolve once [path]
    is the current path.  [addFile path] makes it true; no operation of
    the fake file system ever makes it false again: neither another
    [addFile], nor [setCurrentPath], nor [readNumbers]. *)
Theorem hasFile_tells_readable (this : FakeFileSystemNumberProvider)
    (h : heap) (path : string) :
  (hasFile path this = true <->
   exists a, outcome (readNumbers (state_after (setCurrentPath path this h)) h)
             = Fulfilled a)
  /\ (forall numbers,
        hasFile path (state_after (addFile path numbers this h)) = true)
  /\ (forall q numbers, hasFile path this = true ->
        hasFile path (state_after (addFile q numbers this h)) = true)
  /\ (forall q, hasFile path (state_after (setCurrentPath q this h))
                = hasFile path this)
  /\ hasFile path (state_after (readNumbers this h)) = hasFile path this.
Proof.
  split.
  { rewrite hasFile_true.
    set (sel := state_after (setCurrentPath path this h)).
    assert (Hs : fileSystem sel !! currentPath sel = fileSystem this !! path)
      by reflexivity.
    destruct (fileSystem this !! path) as [stored|] eqn:E.
    - rewrite (FakeFileSystem_readNumbers_stored sel h stored Hs). split; eauto.
    - rewrite (FakeFileSystem_readNumbers_missing sel h Hs). split.
      + intros [x Hx]. discriminate.
      + intros [a Ha]. discriminate. }
  split.
  { intros numbers. apply hasFile_true. rewrite addFile_result. cbn.
    rewrite lookup_insert_eq. eauto. }
  split.
  { intros q numbers Hp. apply hasFile_true. apply hasFile_true in Hp.
    rewrite addFile_result. cbn.
    apply lookup_insert_is_Some'. now right. }
  split; [reflexivity|].
  destruct (fileSystem this !! currentPath this) as [stored|] eqn:E.
  - now rewrite (FakeFileSystem_readNumbers_stored this h stored E).
  - now rewrite (FakeFileSystem_readNumbers_missing this h E).
Qed.

(** X5. A fetch from the fake file system returns a new array and leaves
    the source as it was: whatever the caller does to the array it
    received, the next fetch yields the stored numbers again, in yet
    another array. *)
Theorem FakeFileSystem_fetches_are_independent
    (this : FakeFileSystemNumberProvider) (h : heap) (stored : loc)
    (ys : list number) :
  fileSystem this !! currentPath this = Some stored ->
  (stored < length h)%nat ->
  let fetch1 := readNumbers this h in
  exists a, outcome fetch1 = Fulfilled a
    /\ a <> stored
    /\ state_after fetch1 = this
    /\ deref (heap_after fetch1) a = deref h stored
    /\ let fetch2 := readNumbers this (assign a ys (heap_after fetch1)) in
       exists b, outcome fetch2 = Fulfilled b
         /\ b <> a
         /\ deref (heap_after fetch2) b = deref h stored
         /\ deref (heap_after fetch2) a = ys.
Proof.
  intros E Hlt fetch1. subst fetch1.
  rewrite (FakeFileSystem_readNumbers_stored _ _ _ E).
  unfold outcome, state_after, heap_after. cbn [fst snd].
  exists (length h). split; [reflexivity|]. split; [lia|].
  split; [reflexivity|]. split; [apply deref_alloc|].
  set (k := assign (length h) ys (h ++ [deref h stored])).
  assert (Hk : length k = S (length h)).
  { subst k. rewrite length_assign, length_app. simpl. lia. }
  rewrite (FakeFileSystem_readNumbers_stored _ k _ E). cbn [fst snd].
  exists (length k). split; [reflexivity|]. split; [lia|].
  split.
  - rewrite deref_alloc. subst k. rewrite deref_assign_other by lia.
    now apply deref_app_old.
  - rewrite deref_app_old by lia. subst k.
    apply deref_assign_same. rewrite length_app. simpl. lia.
Qed.

Lemma FakeFileSystem_fetches_are_independent_witness :
  let fs := new_FakeFileSystemNumberProvider [] in
  let this := state_after (setCurrentPath "C:\test-data\third-file.txt" fs.1 fs.2) in
  exists a, outcome (readNumbers this fs.2) = Fulfilled a
            /\ a <> 5%nat
            /\ deref (heap_after (readNumbers this fs.2)) a = [7; 34; 2].
Proof.
  intros fs this.
  destruct (FakeFileSystem_fetches_are_independent this fs.2 5%nat [999])
    as (a & A & Ne & _ & D & _).
  - reflexivity.
  - simpl. lia.
  - exists a. split; [exact A|]. split; [exact Ne|exact D].
Defined.

End FakeFileSystemProperties.

Section CopyingSourcesProperties.

(** X6. The simple fake and the mock resolve with a copy of the array
    they hold: whatever the caller does to the array it received, the
    array held is unchanged and the next fetch yields the same numbers
    again, in another new array. *)
Theorem held_array_is_never_handed_out (held : loc) (h : heap)
    (ys : list number) (calls expected : number) :
  (held < length h)%nat ->
  let fake := mkSimpleFake held in
  let mock := mkMock calls expected held in
  let fake1 := readNumbers fake h in
  let mock1 := readNumbers mock h in
  (exists a, outcome fake1 = Fulfilled a /\ a <> held
     /\ deref (heap_after fake1) a = deref h held
     /\ let mutated := assign a ys (heap_after fake1) in
        let fake2 := readNumbers (state_after fake1) mutated in
        deref mutated held = deref h held
        /\ exists b, outcome fake2 = Fulfilled b /\ b <> a
                     /\ deref (heap_after fake2) b = deref h held)
  /\ (exists a, outcome mock1 = Fulfilled a /\ a <> held
        /\ deref (heap_after mock1) a = deref h held
        /\ let mutated := assign a ys (heap_after mock1) in
           let mock2 := readNumbers (state_after mock1) mutated in
           deref mutated held = deref h held
           /\ exists b, outcome mock2 = Fulfilled b /\ b <> a
                        /\ deref (heap_after mock2) b = deref h held).
Proof.
  intros Hlt fake mock fake1 mock1.
  subst fake1 mock1 fake mock.
  rewrite SimpleFake_readNumbers, Mock_readNumbers.
  unfold outcome, state_after, heap_after. cbn [fst snd fake_numbers mock_numbers].
  set (k := assign (length h) ys (h ++ [deref h held])).
  assert (Hk : length k = S (length h)).
  { subst k. rewrite length_assign, length_app. simpl. lia. }
  assert (Hheld : deref k held = deref h held).
  { subst k. rewrite deref_assign_other by lia. now apply deref_app_old. }
  split.
  - exists (length h). split; [reflexivity|]. split; [lia|].
    split; [apply deref_alloc|]. split; [exact Hheld|].
    rewrite SimpleFake_readNumbers. cbn [fst snd fake_numbers].
    exists (length k). split; [reflexivity|]. split; [lia|].
    now rewrite deref_alloc.
  - exists (length h). split; [reflexivity|]. split; [lia|].
    split; [apply deref_alloc|]. split; [exact Hheld|].
    rewrite Mock_readNumbers. cbn [fst snd mock_numbers].
    exists (length k). split; [reflexivity|]. split; [lia|].
    now rewrite deref_alloc.
Qed.

Lemma held_array_is_never_handed_out_witness :
  exists a, outcome (readNumbers (mkSimpleFake 0%nat) [[1; 2; 3]]) = Fulfilled a
            /\ a <> 0%nat.
Proof.
  destruct (held_array_is_never_handed_out 0%nat [[1; 2; 3]] [999] 0 1)
    as [(a & A & Ne & _) _].
  - simpl. lia.
  - exists a. split; [exact A|exact Ne].
Defined.

End CopyingSourcesProperties.

Section SpyProperties.
Context {P : Type} `{NumberProvider P}.

(** What [spread_each] allocates, for arrays of the store. *)
Lemma spread_each_result {St : Type} (results : list loc) (s : St) (h : heap) :
  Forall (fun r => (r < length h)%nat) results ->
  spread_each results s h =
  (Fulfilled (seq (length h) (length results)), s,
   h ++ map (deref h) results).
Proof.
  revert h. induction results as [|r rest IH]; intros h Hv.
  - simpl. unfold resolve. now rewrite app_nil_r.
  - apply Forall_cons in Hv as [Hr Hrest].
    cbn [spread_each]. unfold await at 1, spread at 1, alloc.
    unfold await at 1.
    rewrite IH.
    + unfold resolve. rewrite length_app. simpl.
      replace (length h + 1)%nat with (S (length h)) by lia.
      rewrite <- app_assoc. simpl. do 3 f_equal.
      apply map_ext_in. intros r' Hr'.
      apply deref_app_old.
      rewrite Forall_forall in Hrest. apply Hrest. now apply list_elem_of_In.
    + eapply Forall_impl; [exact Hrest|]. intros r' Hr'. simpl in Hr'.
      rewrite length_app. simpl. lia.
Qed.

Lemma FileAccessSpy_readNumbers_fulfilled (spy : FileAccessSpy P) h a p' h1 :
  readNumbers (realFileAccess spy) h = (Fulfilled a, p', h1) ->
  readNumbers spy h =
  (Fulfilled a,
   mkFileAccessSpy p' (spy_callCount spy + 1) (recordedResults spy ++ [length h1]),
   h1 ++ [deref h1 a]).
Proof.
  intros E. unfold readNumbers in *. unfold FileAccessSpy_provider.
  unfold readNumbers. now rewrite E.
Qed.

Lemma FileAccessSpy_readNumbers_rejected (spy : FileAccessSpy P) h e p' h1 :
  readNumbers (realFileAccess spy) h = (Rejected e, p', h1) ->
  readNumbers spy h =
  (Rejected e, mkFileAccessSpy p' (spy_callCount spy) (recordedResults spy), h1).
Proof.
  intros E. unfold readNumbers in *. unfold FileAccessSpy_provider.
  unfold readNumbers. now rewrite E.
Qed.

(** X7. The spy passes on what the wrapped source does: the same
    outcome, the same array or the same error, and the wrapped source is
    left as a direct call leaves it.  A rejected fetch is not counted and
    nothing is recorded for it; a fulfilled one is counted once and one
    new array is recorded, holding the numbers of the result. *)
Theorem FileAccessSpy_passes_on (spy : FileAccessSpy P) (h : heap) :
  let direct := readNumbers (realFileAccess spy) h in
  let spied := readNumbers spy h in
  outcome spied = outcome direct
  /\ realFileAccess (state_after spied) = state_after direct
  /\ (forall e, outcome direct = Rejected e ->
        heap_after spied = heap_after direct
        /\ FileAccessSpy_getCallCount (state_after spied)
           = FileAccessSpy_getCallCount spy
        /\ recordedResults (state_after spied) = recordedResults spy)
  /\ (forall a, outcome direct = Fulfilled a ->
        FileAccessSpy_getCallCount (state_after spied)
        = (FileAccessSpy_getCallCount spy + 1)%float
        /\ exists record,
             recordedResults (state_after spied) = recordedResults spy ++ [record]
             /\ heap_after direct !! record = None
             /\ heap_after spied = heap_after direct ++ [deref (heap_after direct) a]
             /\ deref (heap_after spied) record = deref (heap_after direct) a).
Proof.
  intros direct spied. subst spied direct.
  destruct (readNumbers (realFileAccess spy) h) as [[[a|e] p'] h1] eqn:E.
  - rewrite (FileAccessSpy_readNumbers_fulfilled _ _ _ _ _ E).
    unfold outcome, state_after, heap_after, FileAccessSpy_getCallCount.
    cbn [fst snd realFileAccess spy_callCount recordedResults].
    split; [reflexivity|]. split; [reflexivity|].
    split; [intros e' He'; discriminate|].
    intros a' Ha'. injection Ha' as <-. split; [reflexivity|].
    exists (length h1). split; [reflexivity|].
    split; [apply lookup_ge_None_2; lia|]. split; [reflexivity|].
    apply deref_alloc.
  - rewrite (FileAccessSpy_readNumbers_rejected _ _ _ _ _ E).
    unfold outcome, state_after, heap_after, FileAccessSpy_getCallCount.
    cbn [fst snd realFileAccess spy_callCount recordedResults].
    split; [reflexivity|]. split; [reflexivity|].
    split; [intros e' _; repeat split|]. intros a' Ha'. discriminate.
Qed.

(** X8. What the spy records is a snapshot: after a fulfilled fetch,
    whatever the caller does to the array it received, [getLastResult]
    resolves with an array, other than the one received, that holds the
    numbers the source returned. *)
Theorem FileAccessSpy_records_a_snapshot (spy : FileAccessSpy P) (h h1 : heap)
    (p' : P) (a : loc) (ys : list number) :
  readNumbers (realFileAccess spy) h = (Fulfilled a, p', h1) ->
  (a < length h1)%nat ->
  let spied := readNumbers spy h in
  let mutated := assign a ys (heap_after spied) in
  let last := getLastResult (state_after spied) mutated in
  outcome spied = Fulfilled a
  /\ deref mutated a = ys
  /\ exists copy, outcome last = Fulfilled (Some copy)
                  /\ copy <> a
                  /\ deref (heap_after last) copy = deref h1 a.
Proof.
  intros E Hlt spied mutated last. subst last mutated spied.
  rewrite (FileAccessSpy_readNumbers_fulfilled _ _ _ _ _ E).
  unfold outcome, state_after, heap_after. cbn [fst snd].
  set (k := assign a ys (h1 ++ [deref h1 a])).
  assert (Hk : length k = S (length h1)).
  { subst k. rewrite length_assign, length_app. simpl. lia. }
  split; [reflexivity|].
  split; [subst k; apply deref_assign_same; rewrite length_app; lia|].
  unfold getLastResult. cbn [recordedResults].
  rewrite length_app. cbn [length].
  replace (0 <? length (recordedResults spy) + 1)%nat with true
    by (symmetry; apply Nat.ltb_lt; lia).
  replace (length (recordedResults spy) + 1 - 1)%nat
    with (length (recordedResults spy)) by lia.
  rewrite nth_middle.
  unfold await, spread, alloc, resolve. cbn [fst snd].
  exists (length k). split; [reflexivity|]. split; [lia|].
  rewrite deref_alloc. subst k.
  rewrite deref_assign_other by lia. apply deref_alloc.
Qed.

(** X9. [getRecordedResults] hands out copies: it resolves with as many
    new arrays as there are records, holding the recorded numbers in
    order, and leaves the spy as it was; whatever the caller does to one
    of them, a second call yields the recorded numbers again. *)
Theorem getRecordedResults_hands_out_copies (spy : FileAccessSpy P)
    (h : heap) (ys : list number) :
  Forall (fun r => (r < length h)%nat) (recordedResults spy) ->
  let first := getRecordedResults spy h in
  exists copies,
    outcome first = Fulfilled copies
    /\ state_after first = spy
    /\ length copies = length (recordedResults spy)
    /\ Forall (fun c => h !! c = None) copies
    /\ map (deref (heap_after first)) copies = map (deref h) (recordedResults spy)
    /\ forall c, In c copies ->
         let second := getRecordedResults spy (assign c ys (heap_after first)) in
         exists copies', outcome second = Fulfilled copies'
           /\ map (deref (heap_after second)) copies'
              = map (deref h) (recordedResults spy).
Proof.
  intros Hv first. subst first. unfold getRecordedResults.
  rewrite (spread_each_result _ spy h Hv).
  unfold outcome, state_after, heap_after. cbn [fst snd].
  set (rs := recordedResults spy) in *.
  exists (seq (length h) (length rs)).
  split; [reflexivity|]. split; [reflexivity|].
  split; [apply length_seq|].
  assert (Hcopies : map (deref (h ++ map (deref h) rs)) (seq (length h) (length rs))
                    = map (deref h) rs).
  { apply nth_ext with (d := []) (d' := []);
      rewrite !length_map, ?length_seq; [reflexivity|].
    intros i Hi.
    rewrite (nth_indep _ [] (deref (h ++ map (deref h) rs) 0%nat))
      by (rewrite length_map, length_seq; lia).
    rewrite map_nth, seq_nth by lia.
    unfold deref at 1. rewrite lookup_app_r by lia.
    replace (length h + i - length h)%nat with i by lia.
    rewrite <- nth_lookup. reflexivity. }
  split.
  { apply Forall_forall. intros c Hc. apply list_elem_of_In, in_seq in Hc.
    apply lookup_ge_None_2. lia. }
  split; [exact Hcopies|].
  intros c Hc. apply in_seq in Hc.
  set (k := assign c ys (h ++ map (deref h) rs)).
  assert (Hv' : Forall (fun r => (r < length k)%nat) rs).
  { eapply Forall_impl; [exact Hv|]. intros r Hr. simpl in Hr. subst k.
    rewrite length_assign, length_app. lia. }
  rewrite (spread_each_result _ spy k Hv'). cbn [fst snd].
  exists (seq (length k) (length rs)). split; [reflexivity|].
  assert (Hold : map (deref k) rs = map (deref h) rs).
  { apply map_ext_in. intros r Hr. subst k.
    rewrite Forall_forall in Hv.
    assert (r < length h)%nat by (apply Hv; now apply list_elem_of_In).
    rewrite deref_assign_other by lia. now apply deref_app_old. }
  rewrite Hold.
  apply nth_ext with (d := []) (d' := []);
    rewrite !length_map, ?length_seq; [reflexivity|].
  intros i Hi.
  rewrite (nth_indep _ [] (deref (k ++ map (deref h) rs) 0%nat))
    by (rewrite length_map, length_seq; lia).
  rewrite map_nth, seq_nth by lia.
  unfold deref at 1. rewrite lookup_app_r by lia.
  replace (length k + i - length k)%nat with i by lia.
  rewrite <- nth_lookup. reflexivity.
Qed.

End SpyProperties.

Lemma FileAccessSpy_records_a_snapshot_witness :
  let spy := new_FileAccessSpy (mkSimpleFake 0%nat) in
  let spied := readNumbers spy [[100; 200]] in
  let mutated := assign 1%nat [100; 200; 999] (heap_after spied) in
  let last := getLastResult (state_after spied) mutated in
  exists copy, outcome last = Fulfilled (Some copy)
               /\ copy <> 1%nat
               /\ deref (heap_after last) copy = [100; 200].
Proof.
  intros spy spied mutated last.
  destruct (FileAccessSpy_records_a_snapshot spy [[100; 200]]
              [[100; 200]; [100; 200]] (mkSimpleFake 0%nat) 1%nat
              [100; 200; 999]) as (_ & _ & L).
  - reflexivity.
  - simpl. lia.
  - exact L.
Defined.

Lemma getRecordedResults_hands_out_copies_witness :
  let spy := mkFileAccessSpy (mkSimpleFake 0%nat) 2 [1%nat; 2%nat] in
  let h := [[10; 20; 30]; [10; 20; 30]; [10; 20; 30]] in
  exists copies,
    outcome (getRecordedResults spy h) = Fulfilled copies
    /\ length copies = 2%nat.
Proof.
  intros spy h.
  destruct (getRecordedResults_hands_out_copies spy h [999])
    as (copies & C & _ & L & _).
  - repeat constructor.
  - exists copies. split; [exact C|exact L].
Defined.

Section MoreSpyProperties.
Context {P : Type} `{NumberProvider P}.

Lemma zero_lt_not_zero (c : number) :
  (0 <? c)%float = true -> (c =? 0)%float = false.
Proof.
  intros L. destruct (c =? 0)%float eqn:E; [|reflexivity].
  apply eqb_key in E as (_ & _ & K).
  rewrite FloatAxioms.ltb_spec in L. unfold SFltb in L.
  destruct (SFcompare (Prim2SF 0) (Prim2SF c)) as [[| |]|] eqn:C; try discriminate.
  destruct (SFcompare_some _ _ _ C) as [H0 Hc].
  pose proof (SFcompare_key _ _ H0 Hc) as K'. rewrite C in K'.
  unfold key in K. rewrite K in K'. exfalso. eapply klt_irrefl, K'.
Qed.

Lemma eqb_nan_r (c : number) : (c =? nan)%float = false.
Proof.
  destruct (c =? nan)%float eqn:E; [|reflexivity].
  apply eqb_key in E as (_ & N & _). discriminate.
Qed.

(** X10. A fetch the wrapped source rejects leaves no trace in a new
    spy: the spy rejects with the same error, was not called, and has no
    last result and no recorded result. *)
Theorem rejected_fetch_leaves_no_trace (real real' : P) (h h1 : heap) (e : Error) :
  readNumbers real h = (Rejected e, real', h1) ->
  let spied := readNumbers (new_FileAccessSpy real) h in
  let spy := state_after spied in
  let k := heap_after spied in
  outcome spied = Rejected e
  /\ k = h1
  /\ FileAccessSpy_wasCalled spy = false
  /\ FileAccessSpy_wasCalledExactly 0 spy = true
  /\ getLastResult spy k = (Fulfilled None, spy, k)
  /\ getRecordedResults spy k = (Fulfilled [], spy, k).
Proof.
  intros E spied spy k. subst k spy spied.
  rewrite (FileAccessSpy_readNumbers_rejected (new_FileAccessSpy real) _ _ _ _ E).
  repeat split.
Qed.

(** X11. Spying does not change what the facade computes: when the
    wrapped source resolves with an array of the store, the mean and the
    median computed through the spy are those computed on the source
    directly, and the modes hold the same numbers. *)
Theorem spying_keeps_facade_results (spy : FileAccessSpy P) (h h1 : heap)
    (p' : P) (a : loc) :
  readNumbers (realFileAccess spy) h = (Fulfilled a, p', h1) ->
  (a < length h1)%nat ->
  let direct := mkAverage (realFileAccess spy) in
  let spied := mkAverage spy in
  outcome (computeMeanOfFile spied h) = outcome (computeMeanOfFile direct h)
  /\ outcome (computeMedianOfFile spied h) = outcome (computeMedianOfFile direct h)
  /\ exists m m',
       outcome (computeModeOfFile spied h) = Fulfilled m
       /\ outcome (computeModeOfFile direct h) = Fulfilled m'
       /\ deref (heap_after (computeModeOfFile spied h)) m
          = deref (heap_after (computeModeOfFile direct h)) m'.
Proof.
  intros E Hlt direct spied. subst direct spied.
  pose proof (FileAccessSpy_readNumbers_fulfilled spy _ _ _ _ E) as E'.
  rewrite (computeMeanOfFile_fulfilled _ _ _ _ _ E),
    (computeMeanOfFile_fulfilled _ _ _ _ _ E'),
    (computeMedianOfFile_fulfilled _ _ _ _ _ E),
    (computeMedianOfFile_fulfilled _ _ _ _ _ E'),
    (computeModeOfFile_fulfilled _ _ _ _ _ E),
    (computeModeOfFile_fulfilled _ _ _ _ _ E').
  unfold outcome, heap_after. cbn [fst snd].
  rewrite (deref_app_old h1 _ a Hlt).
  split; [reflexivity|]. split; [reflexivity|].
  do 2 eexists. split; [reflexivity|]. split; [reflexivity|].
  now rewrite !deref_alloc.
Qed.

End MoreSpyProperties.

Lemma rejected_fetch_leaves_no_trace_witness :
  let fs := new_FakeFileSystemNumberProvider [] in
  let real := state_after (setCurrentPath "/nonexistent.txt" fs.1 fs.2) in
  let spied := readNumbers (new_FileAccessSpy real) fs.2 in
  outcome spied = Rejected (mkError "File not found: /nonexistent.txt")
  /\ heap_after spied = fs.2.
Proof.
  intros fs real spied.
  destruct (rejected_fetch_leaves_no_trace real real fs.2 fs.2
              (mkError "File not found: /nonexistent.txt"))
    as (O & K & _).
  - reflexivity.
  - split; [exact O|exact K].
Defined.

Lemma spying_keeps_facade_results_witness :
  let spy := new_FileAccessSpy (mkSimpleFake 0%nat) in
  outcome (computeMedianOfFile (mkAverage spy) [[7; 34; 2]])
  = outcome (computeMedianOfFile (mkAverage (mkSimpleFake 0%nat)) [[7; 34; 2]]).
Proof.
  intros spy.
  destruct (spying_keeps_facade_results spy [[7; 34; 2]]
              [[7; 34; 2]; [7; 34; 2]] (mkSimpleFake 0%nat) 1%nat)
    as (_ & M & _).
  - reflexivity.
  - simpl. lia.
  - exact M.
Defined.

Section MockProperties.

(** X12. A mock expecting not-a-number calls never verifies, whatever
    its call count.  A mock built without an expected count expects one
    call: [verify] throws before the first fetch, returns after it, and
    throws again after a second one. *)
Theorem verify_edge_cases (toString : number -> string) (numbers : loc)
    (h : heap) (calls : number) :
  (exists e, outcome (verify toString (mkMock calls nan numbers) h) = Rejected e)
  /\ (let mock := new_MockNumberProvider numbers None in
      let fetch1 := readNumbers mock h in
      let fetch2 := readNumbers (state_after fetch1) (heap_after fetch1) in
      (exists e, outcome (verify toString mock h) = Rejected e)
      /\ outcome (verify toString (state_after fetch1) (heap_after fetch1))
         = Fulfilled tt
      /\ (exists e, outcome (verify toString (state_after fetch2) (heap_after fetch2))
                    = Rejected e)).
Proof.
  split.
  - unfold verify, strict_neq. cbn [callCount expectedCalls].
    rewrite eqb_nan_r. cbn. eauto.
  - cbn. split; [eauto|]. split; [reflexivity|eauto].
Qed.

(** X13. The exact-count check of the simple mock holds for one number
    only, never for not-a-number, and never together with [wasCalled]
    when the number is zero; a new mock was not called. *)
Theorem wasCalledExactly_is_consistent (mock : SimpleMockNumberProvider)
    (a b : number) :
  (SimpleMock_wasCalledExactly a mock = true ->
   SimpleMock_wasCalledExactly b mock = true -> strict_eq a b = true)
  /\ (SimpleMock_wasCalledExactly a mock = true -> isNaN a = false)
  /\ SimpleMock_wasCalledExactly nan mock = false
  /\ (SimpleMock_wasCalled mock = true ->
      SimpleMock_wasCalledExactly 0 mock = false)
  /\ SimpleMock_wasCalled new_SimpleMockNumberProvider = false
  /\ SimpleMock_wasCalledExactly 0 new_SimpleMockNumberProvider = true.
Proof.
  unfold SimpleMock_wasCalledExactly, SimpleMock_wasCalled, strict_eq, isNaN.
  split.
  { intros Ha Hb. exact (eq_num_trans _ _ _ (eq_num_sym _ _ Ha) Hb). }
  split.
  { intros Ha. apply eqb_key in Ha as (_ & N & _). exact N. }
  split; [apply eqb_nan_r|].
  split; [apply zero_lt_not_zero|].
  split; reflexivity.
Qed.

End MockProperties.
